(** * console-mcp: the log acquisition engine of the server ([index.ts])

    A shallow embedding of the functions that spawn a log producer, consume
    its output chunk by chunk and settle a promise: [getDeviceLogs],
    [getSimulatorLogs], [streamSimulatorLogs], [getMacLogs],
    [streamDeviceLogs], [searchLogs], [getLogsByLevel], [watchForPattern], and
    the argument handling of the tool dispatcher.

    Conventions.
    - A JavaScript string is a [string] (a sequence of 8-bit characters);
      [split], concatenation and [includes] act on it character by character
      just as they act on code units in the source.
    - A JavaScript number is an integer [Z].
    - The closure variables of one call ([output], [lineCount], [found],
      [matchedLine]) together with the promise and the signals sent to the
      child form the state of the call; the events the runtime delivers to
      the registered listeners ([data] on stdout and stderr, [close], [error],
      the expiry of the timer) are the constructors of [event]; a call is
      run by folding its listener over a trace of events. *)

From Stdlib Require Import ZArith List String Ascii Bool Lia DecimalString.
From Stdlib Require Import Sorted.
Import ListNotations.
Open Scope string_scope.
Open Scope Z_scope.

(* ------------------------------------------------------------------ *)
(** ** Strings as the source uses them *)

Definition LF : ascii := ascii_of_nat 10.
Definition nl : string := String LF EmptyString.

(** [s.split(sep)] for a one-character separator. *)
Fixpoint split (sep : ascii) (s : string) : list string :=
  match s with
  | EmptyString => [EmptyString]
  | String c rest =>
      if Ascii.eqb c sep then EmptyString :: split sep rest
      else match split sep rest with
           | [] => [String c EmptyString]
           | l :: ls => String c l :: ls
           end
  end.

(** [parts.join(sep)]. *)
Fixpoint join (sep : string) (parts : list string) : string :=
  match parts with
  | [] => EmptyString
  | [p] => p
  | p :: ps => p ++ sep ++ join sep ps
  end.

(** [hay.includes(needle)]. *)
Fixpoint includes (hay needle : string) : bool :=
  prefix needle hay ||
  match hay with
  | EmptyString => false
  | String _ rest => includes rest needle
  end.

(** [toLowerCase] on the letters A-Z. *)
Definition lower_char (c : ascii) : ascii :=
  let n := nat_of_ascii c in
  if (Nat.leb 65 n && Nat.leb n 90)%bool then ascii_of_nat (n + 32) else c.

Fixpoint toLowerCase (s : string) : string :=
  match s with
  | EmptyString => EmptyString
  | String c rest => String (lower_char c) (toLowerCase rest)
  end.

(** The ASCII white space [trim] removes: tab, line feed, vertical tab, form
    feed, carriage return and space. *)
Definition is_space (c : ascii) : bool :=
  let n := nat_of_ascii c in
  ((Nat.leb 9 n && Nat.leb n 13) || Nat.eqb n 32)%bool.

(** [line.trim()] used as a condition: true when a character is left. *)
Fixpoint trim_truthy (s : string) : bool :=
  match s with
  | EmptyString => false
  | String c rest => negb (is_space c) || trim_truthy rest
  end.

(** [s || d] on strings: the empty string is falsy. *)
Definition or_else (s d : string) : string :=
  if String.eqb s EmptyString then d else s.

(** [`${n}`] for an integer. *)
Definition show (n : Z) : string := NilZero.string_of_int (Z.to_int n).

(** [(args?.x as number) || d]: an absent argument and 0 give the default. *)
Definition number_or (x : option Z) (d : Z) : Z :=
  match x with
  | Some v => if v =? 0 then d else v
  | None => d
  end.

(** [if (s)] for an optional string argument. *)
Definition given (s : option string) : option string :=
  match s with
  | Some v => if String.eqb v EmptyString then None else Some v
  | None => None
  end.

(** Number of line feeds in a text. *)
Fixpoint count_LF (s : string) : nat :=
  match s with
  | EmptyString => O
  | String c rest => ((if Ascii.eqb c LF then 1 else 0) + count_LF rest)%nat
  end.

(** The text a run of retained lines adds to [output]. *)
Fixpoint with_LF (lines : list string) : string :=
  match lines with
  | [] => EmptyString
  | l :: ls => l ++ nl ++ with_LF ls
  end.

(* ------------------------------------------------------------------ *)
(** ** Child processes, events and promises *)

Inductive signal := SIGTERM | SIGINT | SIGKILL.

(** What the runtime delivers to the listeners of one child. *)
Inductive event :=
| Stdout (data : string)
| Stderr (data : string)
| Close
| Error (message : string)
| Timer.

Definition command : Type := string * list string.

(** One call: the processes it spawned, the delay of the timer it armed (if
    any), the listeners it registered and the closure state they share. *)
Record call (S : Type) := Call {
  spawned : list command;
  timer : option Z;
  listener : event -> S -> S;
  init : S
}.
Arguments Call {S}.
Arguments spawned {S}.
Arguments timer {S}.
Arguments listener {S}.
Arguments init {S}.

Definition run {S} (c : call S) (evs : list event) : S :=
  fold_left (fun s e => listener c e s) evs (init c).

(** A call that returned before registering a listener. *)
Definition deaf {S} : event -> S -> S := fun _ s => s.

(** State of the calls that resolve to a text. *)
Record collector := Collector {
  output : string;
  lineCount : Z;
  settled : option string;
  kills : list signal
}.

Definition fresh : collector := Collector EmptyString 0 None [].

Definition emit (text : string) (s : collector) : collector :=
  Collector (output s ++ text) (lineCount s) (settled s) (kills s).

Definition keep (line : string) (s : collector) : collector :=
  Collector (output s ++ line ++ nl) (lineCount s + 1) (settled s) (kills s).

(** [resolve(v)]: only the first resolution of a promise takes effect. *)
Definition resolve (v : string) (s : collector) : collector :=
  match settled s with
  | Some _ => s
  | None => Collector (output s) (lineCount s) (Some v) (kills s)
  end.

(** [child.kill(sig)], and [child.kill()] which sends SIGTERM. *)
Definition kill (sig : signal) (s : collector) : collector :=
  Collector (output s) (lineCount s) (settled s) (kills s ++ [sig]).

(* ------------------------------------------------------------------ *)
(** ** getMacLogs *)

Definition collect_line (maxLines : Z) (s : collector) (line : string) : collector :=
  if lineCount s <? maxLines then keep line s else s.

Definition getMacLogs_stdout (maxLines : Z) (data : string) (s : collector) : collector :=
  fold_left (collect_line maxLines) (split LF data) s.

Definition getMacLogs_on (maxLines : Z) (e : event) (s : collector) : collector :=
  match e with
  | Stdout data => getMacLogs_stdout maxLines data s
  | Stderr data => emit ("[stderr] " ++ data) s
  | Close => resolve (or_else (output s) "No logs found") s
  | Error message => resolve ("Error: " ++ message) s
  | Timer => let s' := kill SIGTERM s in resolve (or_else (output s') "Timeout") s'
  end.

Definition dq : string := String (ascii_of_nat 34) EmptyString.

Definition subsystem_is (v : string) : string := "subsystem == " ++ dq ++ v ++ dq.
Definition process_contains (v : string) : string :=
  "processImagePath CONTAINS " ++ dq ++ v ++ dq.

(** [if (x) predicates.push(f(x))]. *)
Definition push_if (x : option string) (f : string -> string) (l : list string)
  : list string :=
  match given x with
  | Some v => app l [f v]
  | None => l
  end.

(** [if (predicates.length > 0) args.push("--predicate", predicates.join(" AND "))]. *)
Definition push_predicate (predicates args : list string) : list string :=
  match predicates with
  | [] => args
  | _ => app args ["--predicate"; join " AND " predicates]
  end.

Definition getMacLogs_args (subsystem process : option string) (lastMinutes : Z)
  : list string :=
  let args := ["show"; "--last"; show lastMinutes ++ "m"; "--style"; "compact"] in
  let predicates := push_if process process_contains (push_if subsystem subsystem_is []) in
  push_predicate predicates args.

Definition getMacLogs (subsystem process : option string) (lastMinutes maxLines : Z)
  : call collector :=
  Call [("log", getMacLogs_args subsystem process lastMinutes)]
       (Some 15000) (getMacLogs_on maxLines) fresh.

(* ------------------------------------------------------------------ *)
(** ** getLogsByLevel *)

(** The level arrives as a string; the [switch] falls to its [default] branch
    for any other text. *)
Definition level_predicate (level : string) : string :=
  if String.eqb level "fault" then "messageType == fault"
  else if String.eqb level "error" then "(messageType == error OR messageType == fault)"
  else if String.eqb level "warning" then "messageType == default"
  else if String.eqb level "info" then "messageType == info"
  else if String.eqb level "debug" then "messageType == debug"
  else "messageType == default".

Definition getLogsByLevel_args (level : string) (process : option string)
  (lastMinutes : Z) : list string :=
  let args := ["show"; "--last"; show lastMinutes ++ "m"; "--style"; "compact"] in
  let args := if String.eqb level "debug" then app args ["--info"; "--debug"] else args in
  push_predicate (push_if process process_contains [level_predicate level]) args.

Definition getLogsByLevel_on (level : string) (maxLines : Z) (e : event) (s : collector)
  : collector :=
  match e with
  | Stdout data => getMacLogs_stdout maxLines data s
  | Stderr _ => s
  | Close => resolve (or_else (output s) ("No " ++ level ++ " logs found")) s
  | Error message => resolve ("Error: " ++ message) s
  | Timer => let s' := kill SIGTERM s in resolve (or_else (output s') "Timeout") s'
  end.

Definition getLogsByLevel (level : string) (process : option string)
  (lastMinutes maxLines : Z) : call collector :=
  Call [("log", getLogsByLevel_args level process lastMinutes)]
       (Some 15000) (getLogsByLevel_on level maxLines) fresh.

(* ------------------------------------------------------------------ *)
(** ** getDeviceLogs *)

Definition device_line (maxLines : Z) (s : collector) (line : string) : collector :=
  if (lineCount s <? maxLines) && trim_truthy line then keep line s else s.

(** [Math.min(lastMinutes * 1000, 10000)]. *)
Definition collectDuration (lastMinutes : Z) : Z := Z.min (lastMinutes * 1000) 10000.

Definition getDeviceLogs_on (udid : string) (maxLines : Z) (e : event) (s : collector)
  : collector :=
  match e with
  | Stdout data => fold_left (device_line maxLines) (split LF data) s
  | Stderr errMsg =>
      if negb (includes errMsg "waiting") then emit ("[stderr] " ++ errMsg) s else s
  | Close => s
  | Error message =>
      resolve ("Error: " ++ message ++ nl ++ nl ++
               "Make sure the device is connected and trusted.") s
  | Timer =>
      let s' := kill SIGTERM s in
      resolve (or_else (output s') ("No logs captured from device " ++ udid)) s'
  end.

Definition idevicesyslog_missing : string :=
  "⚠️ idevicesyslog not found." ++ nl ++ nl ++
  "To get iOS device logs, install libimobiledevice:" ++ nl ++
  "  brew install libimobiledevice" ++ nl ++ nl ++
  "Then ensure your device is:" ++ nl ++
  "  1. Connected via USB" ++ nl ++
  "  2. Unlocked" ++ nl ++
  "  3. Trusted (tap " ++ dq ++ "Trust" ++ dq ++ " on device when prompted)".

(** [hasIdevicesyslog] is the outcome of [execSync("which idevicesyslog")]. *)
Definition getDeviceLogs (hasIdevicesyslog : bool) (udid : string)
  (process : option string) (lastMinutes maxLines : Z) : call collector :=
  if hasIdevicesyslog then
    let args := match given process with
                | Some p => ["-u"; udid; "-m"; p]
                | None => ["-u"; udid]
                end in
    Call [("idevicesyslog", args)] (Some (collectDuration lastMinutes))
         (getDeviceLogs_on udid maxLines) fresh
  else
    Call [] None deaf (resolve idevicesyslog_missing fresh).

(* ------------------------------------------------------------------ *)
(** ** Simulators *)

Record Simulator := {
  udid : string;
  name : string;
  state : string;
  runtime : string;
  isAvailable : bool
}.

(** [findSimulator], over the list [getSimulators()] returned. *)
Definition findSimulator (simulators : list Simulator) (identifier : string)
  : option Simulator :=
  find (fun s => String.eqb (udid s) identifier ||
                 String.eqb (toLowerCase (name s)) (toLowerCase identifier))
       simulators.

Definition getSimulatorLogs_on (simulator : Simulator) (maxLines : Z) (e : event)
  (s : collector) : collector :=
  match e with
  | Stdout data => getMacLogs_stdout maxLines data s
  | Stderr data => emit ("[stderr] " ++ data) s
  | Close => resolve (or_else (output s) ("No logs found for simulator " ++ name simulator)) s
  | Error message => resolve ("Error: " ++ message) s
  | Timer =>
      let s' := kill SIGTERM s in
      resolve (or_else (output s') "Timeout waiting for simulator logs") s'
  end.

Definition getSimulatorLogs (simulators : list Simulator) (id : string)
  (process : option string) (lastMinutes maxLines : Z) : call collector :=
  match findSimulator simulators id with
  | None =>
      Call [] None deaf
        (resolve ("Simulator with identifier " ++ dq ++ id ++ dq ++ " not found") fresh)
  | Some simulator =>
      if negb (String.eqb (state simulator) "Booted") then
        Call [] None deaf
          (resolve ("Simulator " ++ dq ++ name simulator ++ dq ++
                    " is not running (state: " ++ state simulator ++ ")." ++ nl ++
                    "Boot it first with: xcrun simctl boot " ++ dq ++ udid simulator ++ dq)
                   fresh)
      else
        let spawnArgs :=
          ["simctl"; "spawn"; id; "log"; "show"; "--last"; show lastMinutes ++ "m";
           "--style"; "compact"] in
        let spawnArgs :=
          match given process with
          | Some p => app spawnArgs ["--predicate"; process_contains p]
          | None => spawnArgs
          end in
        Call [("xcrun", spawnArgs)] (Some 15000)
             (getSimulatorLogs_on simulator maxLines) fresh
  end.

(** The streaming listeners append every chunk as it is. *)
Definition stream_on (empty_text : string) (e : event) (s : collector) : collector :=
  match e with
  | Stdout data => emit data s
  | Stderr data => emit data s
  | Close => s
  | Error message => resolve ("Error: " ++ message) s
  | Timer => let s' := kill SIGTERM s in resolve (or_else (output s') empty_text) s'
  end.

Definition streamSimulatorLogs (simulators : list Simulator) (id : string)
  (process : option string) (durationSeconds : Z) : call collector :=
  match findSimulator simulators id with
  | None =>
      Call [] None deaf
        (resolve ("Simulator with identifier " ++ dq ++ id ++ dq ++ " not found") fresh)
  | Some simulator =>
      if negb (String.eqb (state simulator) "Booted") then
        Call [] None deaf
          (resolve ("Simulator " ++ dq ++ name simulator ++ dq ++ " is not running." ++ nl ++
                    "Boot it first with: xcrun simctl boot " ++ dq ++ udid simulator ++ dq)
                   fresh)
      else
        let spawnArgs := ["simctl"; "spawn"; id; "log"; "stream"; "--style"; "compact"] in
        let spawnArgs :=
          match given process with
          | Some p => app spawnArgs ["--predicate"; process_contains p]
          | None => spawnArgs
          end in
        Call [("xcrun", spawnArgs)] (Some (durationSeconds * 1000))
             (stream_on ("No logs captured from simulator " ++ name simulator)) fresh
  end.

(* ------------------------------------------------------------------ *)
(** ** streamDeviceLogs *)

Definition streamDeviceLogs (hasIdevicesyslog : bool) (udid : string)
  (process : option string) (durationSeconds : Z) : call collector :=
  let child :=
    if hasIdevicesyslog then
      ("idevicesyslog",
       match given process with
       | Some p => ["-u"; udid; "-p"; p]
       | None => ["-u"; udid]
       end)
    else
      ("log",
       match given process with
       | Some p => ["stream"; "--style"; "compact"; "--predicate"; process_contains p]
       | None => ["stream"; "--style"; "compact"]
       end) in
  Call [child] (Some (durationSeconds * 1000))
       (stream_on "No logs captured during stream") fresh.

(* ------------------------------------------------------------------ *)
(** ** Matchers, searchLogs and watchForPattern *)

(** Outcome of [new RegExp(pattern, "i")]: a regular expression, of which the
    code uses [test] only, or a thrown [SyntaxError] with its rendering
    [`${e}`]. *)
Inductive regexp := Regex (test : string -> bool) | SyntaxError (text : string).

(** The plain matcher: [line.toLowerCase().includes(queryLower)]. *)
Definition plain_matcher (query : string) : string -> bool :=
  let queryLower := toLowerCase query in
  fun line => includes (toLowerCase line) queryLower.

(** What [watchForPattern] resolves to. *)
Record watch_result := WatchResult {
  found : bool;
  matchedLine : string;
  allOutput : string
}.

(** Closure state of [watchForPattern]: the variables [output], [found] and
    [matchedLine], the promise and the signals sent. *)
Record watcher := Watcher {
  w_output : string;
  w_found : bool;
  w_matchedLine : string;
  w_settled : option watch_result;
  w_kills : list signal
}.

Definition w_fresh : watcher := Watcher EmptyString false EmptyString None [].

Definition w_resolve (v : watch_result) (s : watcher) : watcher :=
  match w_settled s with
  | Some _ => s
  | None => Watcher (w_output s) (w_found s) (w_matchedLine s) (Some v) (w_kills s)
  end.

Definition w_kill (sig : signal) (s : watcher) : watcher :=
  Watcher (w_output s) (w_found s) (w_matchedLine s) (w_settled s) (w_kills s ++ [sig]).

Definition timeout_note : string :=
  nl ++ nl ++ "⏱️ Timeout reached without finding pattern.".

(** Body of the loop over the lines of one stdout chunk in [searchLogs]. *)
Definition search_line (matcher : string -> bool) (maxLines : Z) (s : collector)
  (line : string) : collector :=
  if matcher line && (lineCount s <? maxLines) then keep line s else s.

Definition searchLogs_on (query : string) (matcher : string -> bool) (maxLines : Z)
  (e : event) (s : collector) : collector :=
  match e with
  | Stdout data => fold_left (search_line matcher maxLines) (split LF data) s
  | Stderr _ => s
  | Close =>
      resolve (or_else (output s) ("No logs matching " ++ dq ++ query ++ dq ++ " found")) s
  | Error message => resolve ("Error: " ++ message) s
  | Timer => let s' := kill SIGTERM s in resolve (or_else (output s') "Timeout") s'
  end.

(** Body of the loop over the lines of one stdout chunk in [watchForPattern]. *)
Definition watch_line (matcher : string -> bool) (s : watcher) (line : string) : watcher :=
  let s := Watcher (w_output s ++ line ++ nl) (w_found s) (w_matchedLine s)
                   (w_settled s) (w_kills s) in
  if negb (w_found s) && matcher line then
    w_kill SIGTERM (Watcher (w_output s) true line (w_settled s) (w_kills s))
  else s.

Definition watchForPattern_on (matcher : string -> bool) (e : event) (s : watcher)
  : watcher :=
  match e with
  | Stdout data => fold_left (watch_line matcher) (split LF data) s
  | Stderr data =>
      Watcher (w_output s ++ data) (w_found s) (w_matchedLine s) (w_settled s) (w_kills s)
  | Close => w_resolve (WatchResult (w_found s) (w_matchedLine s) (w_output s)) s
  | Error message => w_resolve (WatchResult false EmptyString ("Error: " ++ message)) s
  | Timer =>
      if negb (w_found s) then
        let s' := w_kill SIGTERM s in
        w_resolve (WatchResult false EmptyString (w_output s' ++ timeout_note)) s'
      else s
  end.

Section Engine.

(** [RegExp_i pattern] is [new RegExp(pattern, "i")] of the host. *)
Variable RegExp_i : string -> regexp.

Definition searchLogs (query : string) (lastMinutes maxLines : Z) (useRegex : bool)
  : call collector :=
  let args := ["show"; "--last"; show lastMinutes ++ "m"; "--style"; "compact"] in
  let child := ("log", args) in
  if useRegex then
    match RegExp_i query with
    | Regex test =>
        Call [child] (Some 30000) (searchLogs_on query test maxLines) fresh
    | SyntaxError e =>
        Call [child] None deaf
          (resolve ("Invalid regex pattern: " ++ query ++ nl ++ "Error: " ++ e) fresh)
    end
  else
    Call [child] (Some 30000) (searchLogs_on query (plain_matcher query) maxLines) fresh.

Definition watchForPattern (pattern : string) (useRegex : bool)
  (process : option string) (timeoutSeconds : Z) : call watcher :=
  let args := ["stream"; "--style"; "compact"] in
  let args :=
    match given process with
    | Some p => app args ["--predicate"; process_contains p]
    | None => args
    end in
  let child := ("log", args) in
  if useRegex then
    match RegExp_i pattern with
    | Regex test =>
        Call [child] (Some (timeoutSeconds * 1000)) (watchForPattern_on test) w_fresh
    | SyntaxError e =>
        Call [child] None deaf
          (w_resolve (WatchResult false EmptyString ("Invalid regex: " ++ e)) w_fresh)
    end
  else
    Call [child] (Some (timeoutSeconds * 1000))
         (watchForPattern_on (plain_matcher pattern)) w_fresh.

(** The matcher a call builds, when it builds one. *)
Definition matcher_of (pattern : string) (useRegex : bool) : option (string -> bool) :=
  if useRegex then
    match RegExp_i pattern with
    | Regex test => Some test
    | SyntaxError _ => None
    end
  else Some (plain_matcher pattern).

End Engine.

(* ------------------------------------------------------------------ *)
(** ** The tool dispatcher *)

Module Device.
Record t := {
  udid : string;
  name : string;
  model : string;
  connectionType : string
}.
End Device.

(** [findDevice], over the list [getConnectedDevices()] returned. *)
Definition findDevice (devices : list Device.t) (identifier : string) : option Device.t :=
  find (fun d => String.eqb (Device.udid d) identifier ||
                 String.eqb (toLowerCase (Device.name d)) (toLowerCase identifier))
       devices.

Definition upper_char (c : ascii) : ascii :=
  let n := nat_of_ascii c in
  if (Nat.leb 97 n && Nat.leb n 122)%bool then ascii_of_nat (n - 32) else c.

Fixpoint toUpperCase (s : string) : string :=
  match s with
  | EmptyString => EmptyString
  | String c rest => String (upper_char c) (toUpperCase rest)
  end.

(** A tool call either answers at once or awaits an engine call and formats
    what it resolved to. *)
Inductive handled :=
| Reply (text : string)
| Await (c : call collector) (format : string -> string)
| AwaitWatch (c : call watcher) (format : watch_result -> string).

(** [(args?.useRegex as boolean) || false]. *)
Definition flag (b : option bool) : bool :=
  match b with Some v => v | None => false end.

Definition listed (nm id : string) : string := "- " ++ nm ++ " (" ++ id ++ ")".

Section Dispatch.

Variable RegExp_i : string -> regexp.
(** What [getConnectedDevices()], [getSimulators()] and
    [execSync("which idevicesyslog")] give on the host. *)
Variable devices : list Device.t.
Variable simulators : list Simulator.
Variable hasIdevicesyslog : bool.

Definition get_logs (process subsystem : option string) (lastMinutes maxLines : option Z)
  : handled :=
  let lastMinutes := number_or lastMinutes 5 in
  let maxLines := number_or maxLines 200 in
  Await (getMacLogs subsystem process lastMinutes maxLines) (fun logs => logs).

Definition get_device_logs (device process : option string)
  (lastMinutes maxLines : option Z) : handled :=
  let lastMinutes := Z.min (number_or lastMinutes 5) 10 in
  let maxLines := number_or maxLines 200 in
  match given device with
  | None =>
      Reply "Error: device parameter is required. Use list_devices to find device name or UDID."
  | Some deviceId =>
      match findDevice devices deviceId with
      | None =>
          match devices with
          | [] =>
              Reply ("Device " ++ dq ++ deviceId ++ dq ++
                     " not found. No devices are currently connected.")
          | _ =>
              Reply ("Device " ++ dq ++ deviceId ++ dq ++ " not found." ++ nl ++ nl ++
                     "Available devices:" ++ nl ++
                     join nl (map (fun d => listed (Device.name d) (Device.udid d)) devices))
          end
      | Some d =>
          Await (getDeviceLogs hasIdevicesyslog (Device.udid d) process lastMinutes maxLines)
                (fun logs => "📱 Logs from " ++ Device.name d ++ ":" ++ nl ++ nl ++ logs)
      end
  end.

Definition get_simulator_logs (simulator process : option string)
  (lastMinutes maxLines : option Z) : handled :=
  let lastMinutes := number_or lastMinutes 5 in
  let maxLines := number_or maxLines 200 in
  match given simulator with
  | None =>
      Reply "Error: simulator parameter is required. Use list_simulators to find simulator name or UDID."
  | Some simulatorId =>
      match findSimulator simulators simulatorId with
      | None =>
          match filter (fun s => String.eqb (state s) "Booted") simulators with
          | [] =>
              Reply ("Simulator " ++ dq ++ simulatorId ++ dq ++
                     " not found. No simulators are currently running.")
          | bootedSims =>
              Reply ("Simulator " ++ dq ++ simulatorId ++ dq ++ " not found." ++ nl ++ nl ++
                     "Running simulators:" ++ nl ++
                     join nl (map (fun s => listed (name s) (udid s)) bootedSims))
          end
      | Some sim =>
          Await (getSimulatorLogs simulators (udid sim) process lastMinutes maxLines)
                (fun logs => "📱 Logs from " ++ name sim ++ " (" ++ runtime sim ++ "):" ++
                             nl ++ nl ++ logs)
      end
  end.

Definition stream_logs (process : option string) (durationSeconds : option Z) : handled :=
  let duration := Z.min (number_or durationSeconds 10) 30 in
  Await (streamDeviceLogs hasIdevicesyslog EmptyString process duration) (fun logs => logs).

Definition stream_simulator_logs (simulator process : option string)
  (durationSeconds : option Z) : handled :=
  let duration := Z.min (number_or durationSeconds 10) 30 in
  match given simulator with
  | None => Reply "Error: simulator parameter is required."
  | Some simulatorId =>
      Await (streamSimulatorLogs simulators simulatorId process duration) (fun logs => logs)
  end.

Definition search_logs (query : option string) (useRegex : option bool)
  (lastMinutes maxLines : option Z) : handled :=
  let useRegex := flag useRegex in
  let lastMinutes := number_or lastMinutes 30 in
  let maxLines := number_or maxLines 100 in
  match given query with
  | None => Reply "Error: query is required"
  | Some query =>
      Await (searchLogs RegExp_i query lastMinutes maxLines useRegex) (fun logs => logs)
  end.

Definition get_logs_by_level (level process : option string)
  (lastMinutes maxLines : option Z) : handled :=
  let lastMinutes := number_or lastMinutes 5 in
  let maxLines := number_or maxLines 200 in
  match given level with
  | None => Reply "Error: level is required (fault, error, warning, info, debug)"
  | Some level =>
      Await (getLogsByLevel level process lastMinutes maxLines)
            (fun logs => "🔍 " ++ toUpperCase level ++ " logs:" ++ nl ++ nl ++ logs)
  end.

Definition watch_for_pattern (pattern : option string) (useRegex : option bool)
  (process : option string) (timeoutSeconds : option Z) : handled :=
  let useRegex := flag useRegex in
  let timeoutSeconds := Z.min (number_or timeoutSeconds 30) 60 in
  match given pattern with
  | None => Reply "Error: pattern is required"
  | Some pattern =>
      AwaitWatch (watchForPattern RegExp_i pattern useRegex process timeoutSeconds)
        (fun result =>
           if found result then
             "✅ Pattern found!" ++ nl ++ nl ++ "🎯 Matched line:" ++ nl ++
             matchedLine result ++ nl ++ nl ++ "📝 Full log output:" ++ nl ++
             allOutput result
           else
             "❌ Pattern " ++ dq ++ pattern ++ dq ++ " not found within " ++
             show timeoutSeconds ++ " seconds." ++ nl ++ nl ++ "📝 Captured logs:" ++ nl ++
             allOutput result)
  end.

Definition get_vpn_logs (lastMinutes maxLines : option Z) : handled :=
  let lastMinutes := number_or lastMinutes 5 in
  let maxLines := number_or maxLines 300 in
  Await (getMacLogs None (Some "WorxVPN") lastMinutes maxLines) (fun logs => logs).

End Dispatch.

(** The acquisition tools of the [switch (name)] in the request handler,
    each with the arguments it reads from [args]. *)
Inductive request :=
| GetLogs (process subsystem : option string) (lastMinutes maxLines : option Z)
| GetDeviceLogs (device process : option string) (lastMinutes maxLines : option Z)
| GetSimulatorLogs (simulator process : option string) (lastMinutes maxLines : option Z)
| StreamLogs (process : option string) (durationSeconds : option Z)
| StreamSimulatorLogs (simulator process : option string) (durationSeconds : option Z)
| SearchLogs (query : option string) (useRegex : option bool)
             (lastMinutes maxLines : option Z)
| GetLogsByLevel (level process : option string) (lastMinutes maxLines : option Z)
| WatchForPattern (pattern : option string) (useRegex : option bool)
                  (process : option string) (timeoutSeconds : option Z)
| GetVpnLogs (lastMinutes maxLines : option Z).

(** The host a request runs on. *)
Record host := Host {
  RegExp_i : string -> regexp;
  devices : list Device.t;
  simulators : list Simulator;
  hasIdevicesyslog : bool
}.

Definition dispatch (h : host) (r : request) : handled :=
  match r with
  | GetLogs process subsystem lastMinutes maxLines =>
      get_logs process subsystem lastMinutes maxLines
  | GetDeviceLogs device process lastMinutes maxLines =>
      get_device_logs (devices h) (hasIdevicesyslog h) device process lastMinutes maxLines
  | GetSimulatorLogs simulator process lastMinutes maxLines =>
      get_simulator_logs (simulators h) simulator process lastMinutes maxLines
  | StreamLogs process durationSeconds =>
      stream_logs (hasIdevicesyslog h) process durationSeconds
  | StreamSimulatorLogs simulator process durationSeconds =>
      stream_simulator_logs (simulators h) simulator process durationSeconds
  | SearchLogs query useRegex lastMinutes maxLines =>
      search_logs (RegExp_i h) query useRegex lastMinutes maxLines
  | GetLogsByLevel level process lastMinutes maxLines =>
      get_logs_by_level level process lastMinutes maxLines
  | WatchForPattern pattern useRegex process timeoutSeconds =>
      watch_for_pattern (RegExp_i h) pattern useRegex process timeoutSeconds
  | GetVpnLogs lastMinutes maxLines =>
      get_vpn_logs lastMinutes maxLines
  end.

Definition is_watch (r : request) : bool :=
  match r with WatchForPattern _ _ _ _ => true | _ => false end.

(** [await]: the tool call has its answer once the promise is resolved. *)
Definition answer (h : handled) (evs : list event) : option string :=
  match h with
  | Reply text => Some text
  | Await c format => option_map format (settled (run c evs))
  | AwaitWatch c format => option_map format (w_settled (run c evs))
  end.

Definition answered (h : handled) (evs : list event) : bool :=
  match answer h evs with Some _ => true | None => false end.

(** The delay of the timer a tool call arms. *)
Definition armed (h : handled) : option Z :=
  match h with
  | Reply _ => None
  | Await c _ => timer c
  | AwaitWatch c _ => timer c
  end.

(** The engine call behind a tool call that resolves to a text. *)
Definition awaited (h : handled) : option (call collector) :=
  match h with
  | Await c _ => Some c
  | _ => None
  end.

(** What the streaming listeners have appended to [output]: every chunk of
    either stream, as it came. *)
Fixpoint stream_text (evs : list event) : string :=
  match evs with
  | [] => EmptyString
  | Stdout data :: rest => data ++ stream_text rest
  | Stderr data :: rest => data ++ stream_text rest
  | _ :: rest => stream_text rest
  end.

(** Events that leave a streaming call pending: output, and the close of the
    child, to which the streaming functions do not listen. *)
Definition is_quiet (e : event) : bool :=
  match e with
  | Stdout _ | Stderr _ | Close => true
  | _ => false
  end.

(* ------------------------------------------------------------------ *)
(** ** The lines a listener processes *)

(** Every stdout listener splits the chunk it is handed, [data.toString()
    .split("\n")], and loops over the result before it returns; over a
    sequence of chunks the loop bodies therefore see these lines, in this
    order. *)
Definition lines_of (chunks : list string) : list string :=
  flat_map (split LF) chunks.

(** The text the producer wrote: its chunks one after the other. *)
Definition whole (chunks : list string) : string :=
  fold_right append EmptyString chunks.

(** A chunk that stops at a line boundary: empty, or ending in a line feed. *)
Fixpoint ends_LF (s : string) : bool :=
  match s with
  | EmptyString => true
  | String c EmptyString => Ascii.eqb c LF
  | String _ rest => ends_LF rest
  end.

Definition nonempty (line : string) : bool := negb (String.eqb line EmptyString).

(** Output events: the chunks of the two streams. *)
Definition is_data (e : event) : bool :=
  match e with
  | Stdout _ | Stderr _ => true
  | _ => false
  end.

(** The stdout lines of a trace, in the order the loop bodies see them. *)
Definition stdout_lines (evs : list event) : list string :=
  flat_map (fun e => match e with Stdout data => split LF data | _ => [] end) evs.

(** What a trace of output events appends to [output] in [watchForPattern]:
    each stdout line with a line feed, each stderr chunk as it is. *)
Fixpoint watch_text (evs : list event) : string :=
  match evs with
  | [] => EmptyString
  | Stdout data :: rest => with_LF (split LF data) ++ watch_text rest
  | Stderr data :: rest => data ++ watch_text rest
  | _ :: rest => watch_text rest
  end.

(** The events that end a watch that has found its line: [close], which
    resolves with the match, and [error]. *)
Definition is_end (e : event) : bool :=
  match e with
  | Close | Error _ => true
  | _ => false
  end.

(** [found] and [matchedLine] of what a watch resolved to. *)
Definition found_line (s : watcher) : option (bool * string) :=
  match w_settled s with
  | Some r => Some (found r, matchedLine r)
  | None => None
  end.

(** The first of two optional matches. *)
Definition first_hit (a b : option string) : option string :=
  match a with Some _ => a | None => b end.

(** Net effect on the watcher of output [text] whose first matching line, if
    any, is [hit]: the text is appended; the first match ever seen sets
    [found] and [matchedLine] and sends one SIGTERM. *)
Definition absorb (text : string) (hit : option string) (s : watcher) : watcher :=
  match hit with
  | Some line =>
      if w_found s then
        Watcher (w_output s ++ text) true (w_matchedLine s) (w_settled s) (w_kills s)
      else
        Watcher (w_output s ++ text) true line (w_settled s) (w_kills s ++ [SIGTERM])
  | None =>
      Watcher (w_output s ++ text) (w_found s) (w_matchedLine s) (w_settled s) (w_kills s)
  end.

(** The lines a loop that starts with [lineCount = k] still retains. *)
Definition room (maxLines k : Z) : nat := Z.to_nat (maxLines - k).

(** A listener under which a resolved promise keeps its value. *)
Definition keeps_settled (on : event -> collector -> collector) : Prop :=
  forall e s r, settled s = Some r -> settled (on e s) = Some r.

(** A call that is resolved when it starts, or whose timer resolves it. *)
Definition timely (c : call collector) : Prop :=
  keeps_settled (listener c) /\
  (settled (init c) <> None \/ forall s, settled (listener c Timer s) <> None).




(* ------------------------------------------------------------------ *)
(** ** Reading a tool call and its trace *)

(** The children a tool call has spawned. *)
Definition spawned_by (h : handled) : list command :=
  match h with
  | Reply _ => []
  | Await c _ => spawned c
  | AwaitWatch c _ => spawned c
  end.

Definition absent (s : option string) : bool :=
  match given s with Some _ => false | None => true end.

(** The parameter a tool insists on, [if (!x)], is absent or empty. *)
Definition missing_required (r : request) : bool :=
  match r with
  | GetDeviceLogs device _ _ _ => absent device
  | GetSimulatorLogs simulator _ _ _ => absent simulator
  | StreamSimulatorLogs simulator _ _ => absent simulator
  | SearchLogs query _ _ _ => absent query
  | GetLogsByLevel level _ _ _ => absent level
  | WatchForPattern pattern _ _ _ => absent pattern
  | _ => false
  end.

(** A numeric argument given as 0 read as one that was not given. *)
Definition zero_absent (x : option Z) : option Z :=
  match x with
  | Some v => if v =? 0 then None else Some v
  | None => None
  end.

Definition zeros_absent (r : request) : request :=
  match r with
  | GetLogs p s lastMinutes maxLines =>
      GetLogs p s (zero_absent lastMinutes) (zero_absent maxLines)
  | GetDeviceLogs d p lastMinutes maxLines =>
      GetDeviceLogs d p (zero_absent lastMinutes) (zero_absent maxLines)
  | GetSimulatorLogs s p lastMinutes maxLines =>
      GetSimulatorLogs s p (zero_absent lastMinutes) (zero_absent maxLines)
  | StreamLogs p durationSeconds => StreamLogs p (zero_absent durationSeconds)
  | StreamSimulatorLogs s p durationSeconds =>
      StreamSimulatorLogs s p (zero_absent durationSeconds)
  | SearchLogs q u lastMinutes maxLines =>
      SearchLogs q u (zero_absent lastMinutes) (zero_absent maxLines)
  | GetLogsByLevel l p lastMinutes maxLines =>
      GetLogsByLevel l p (zero_absent lastMinutes) (zero_absent maxLines)
  | WatchForPattern pt u p timeoutSeconds =>
      WatchForPattern pt u p (zero_absent timeoutSeconds)
  | GetVpnLogs lastMinutes maxLines =>
      GetVpnLogs (zero_absent lastMinutes) (zero_absent maxLines)
  end.

(** Line feeds in the stderr chunks of a trace. *)
Fixpoint stderr_LF (evs : list event) : nat :=
  match evs with
  | [] => O
  | Stderr data :: rest => (count_LF data + stderr_LF rest)%nat
  | _ :: rest => stderr_LF rest
  end.

(** Every chunk with a line feed added at its end. *)
Definition each_with_LF (chunks : list string) : list string :=
  map (fun chunk => chunk ++ nl) chunks.

(* ------------------------------------------------------------------ *)
(** ** getConnectedDevices *)

(** [s.trim()], for the white space of [is_space]. *)
Fixpoint trim_start (s : string) : string :=
  match s with
  | EmptyString => EmptyString
  | String c rest => if is_space c then trim_start rest else s
  end.

Fixpoint trim_end (s : string) : string :=
  match s with
  | EmptyString => EmptyString
  | String c rest =>
      match trim_end rest with
      | EmptyString => if is_space c then EmptyString else String c EmptyString
      | kept => String c kept
      end
  end.

Definition trim (s : string) : string := trim_end (trim_start s).

(** [s.split(/\s{2,}/)]: the text is cut at every run of two or more white
    space characters; [field] is the column being read and [gap] the run of
    white space met after it. *)
Fixpoint split_gaps_from (field gap s : string) : list string :=
  match s with
  | EmptyString =>
      match gap with
      | EmptyString => [field]
      | String _ EmptyString => [field ++ gap]
      | _ => [field; EmptyString]
      end
  | String c rest =>
      if is_space c then split_gaps_from field (gap ++ String c EmptyString) rest
      else
        match gap with
        | EmptyString => split_gaps_from (field ++ String c EmptyString) EmptyString rest
        | String _ EmptyString =>
            split_gaps_from (field ++ gap ++ String c EmptyString) EmptyString rest
        | _ => field :: split_gaps_from (String c EmptyString) EmptyString rest
        end
  end.

Definition split_gaps (s : string) : list string :=
  split_gaps_from EmptyString EmptyString s.

(** The body of the loop over the lines of the device table. *)
Definition device_of_line (line : string) : list Device.t :=
  let parts := split_gaps (trim line) in
  if Nat.leb 4 (List.length parts) then
    [ {| Device.name := nth 0 parts EmptyString;
         Device.udid := nth 2 parts EmptyString;
         Device.model := or_else (nth 4 parts EmptyString) "Unknown";
         Device.connectionType := or_else (nth 1 parts EmptyString) "Unknown" |} ]
  else [].

(** [output] is what [execSync("xcrun devicectl list devices")] printed,
    [None] when it threw. *)
Definition getConnectedDevices (output : option string) : list Device.t :=
  match output with
  | None => []
  | Some text => flat_map device_of_line (skipn 2 (split LF text))
  end.

(* ------------------------------------------------------------------ *)
(** ** getCrashLogs *)

Module CrashReport.
Record t := {
  filename : string;
  path : string;
  process : string;
  date : Z;
  preview : string
}.
End CrashReport.

(** A directory entry as [getCrashLogs] sees it: its name, the modification
    time [stat] gives and the text [readFile] gives, [None] where the call
    throws. *)
Record entry := Entry {
  entry_name : string;
  entry_mtime : option Z;
  entry_text : option string
}.

(** [s] ends with [suffix]. *)
Fixpoint ends_with (suffix s : string) : bool :=
  String.eqb s suffix ||
  match s with
  | EmptyString => false
  | String _ rest => ends_with suffix rest
  end.

(** [file.match(/\.(crash|ips|diag)$/)]. *)
Definition is_report (file : string) : bool :=
  ends_with ".crash" file || ends_with ".ips" file || ends_with ".diag" file.

(** [process && !file.toLowerCase().includes(process.toLowerCase())]. *)
Definition other_process (process : option string) (file : string) : bool :=
  match given process with
  | Some p => negb (includes (toLowerCase file) (toLowerCase p))
  | None => false
  end.

(** Insertion of a report before the first one that is not newer: the order
    of [reports.sort((a, b) => b.date.getTime() - a.date.getTime())], which
    keeps reports of one date in the order they were found. *)
Fixpoint insert_report (r : CrashReport.t) (sorted : list CrashReport.t)
  : list CrashReport.t :=
  match sorted with
  | [] => [r]
  | y :: rest =>
      if CrashReport.date y <=? CrashReport.date r then r :: y :: rest
      else y :: insert_report r rest
  end.

Fixpoint sort_reports (reports : list CrashReport.t) : list CrashReport.t :=
  match reports with
  | [] => []
  | r :: rest => insert_report r (sort_reports rest)
  end.

(** [list.slice(0, n)]: a negative [n] counts from the end. *)
Definition slice0 {A} (n : Z) (l : list A) : list A :=
  if n <? 0 then firstn (List.length l - Z.to_nat (- n)) l
  else firstn (Z.to_nat n) l.

Section Crash.

(** [join] of the path module, [Date.prototype.toLocaleString], the directory
    listings of the host, and the date [lastDays] days before now. *)
Variable path_join : string -> string -> string.
Variable toLocaleString : Z -> string.
Variable readdir : string -> option (list entry).
Variable days_ago : Z -> Z.

Definition report_of (dir file : string) (mtime : Z) (content : string)
  : CrashReport.t :=
  {| CrashReport.filename := file;
     CrashReport.path := path_join dir file;
     CrashReport.process := or_else (hd EmptyString (split "-" file)) file;
     CrashReport.date := mtime;
     CrashReport.preview := join nl (firstn 10 (split LF content)) |}.

(** The loop over the files of one directory; a [stat] or [readFile] that
    throws leaves the loop, and what was pushed before stays. *)
Fixpoint scan (process : option string) (cutoffDate : Z) (dir : string)
  (files : list entry) (reports : list CrashReport.t) : list CrashReport.t :=
  match files with
  | [] => reports
  | f :: rest =>
      if negb (is_report (entry_name f)) then scan process cutoffDate dir rest reports
      else if other_process process (entry_name f) then
        scan process cutoffDate dir rest reports
      else
        match entry_mtime f with
        | None => reports
        | Some mtime =>
            if mtime <? cutoffDate then scan process cutoffDate dir rest reports
            else
              match entry_text f with
              | None => reports
              | Some content =>
                  scan process cutoffDate dir rest
                       (app reports [report_of dir (entry_name f) mtime content])
              end
        end
  end.

Definition scan_dirs (process : option string) (cutoffDate : Z) (crashDirs : list string)
  : list CrashReport.t :=
  fold_left
    (fun reports dir =>
       match readdir dir with
       | None => reports
       | Some files => scan process cutoffDate dir files reports
       end)
    crashDirs [].

Definition report_item (i : nat) (r : CrashReport.t) : string :=
  show (Z.of_nat i + 1) ++ ". 💥 " ++ CrashReport.process r ++ nl ++
  "   File: " ++ CrashReport.filename r ++ nl ++
  "   Date: " ++ toLocaleString (CrashReport.date r).

Fixpoint report_items (i : nat) (reports : list CrashReport.t) : list string :=
  match reports with
  | [] => []
  | r :: rest => report_item i r :: report_items (Datatypes.S i) rest
  end.

Definition getCrashLogs (homedir : string) (process : option string)
  (lastDays maxReports : Z) : list CrashReport.t * string :=
  let crashDirs :=
    [path_join homedir "Library/Logs/DiagnosticReports"; "/Library/Logs/DiagnosticReports"] in
  let reports := sort_reports (scan_dirs process (days_ago lastDays) crashDirs) in
  let limitedReports := slice0 maxReports reports in
  let summary :=
    match limitedReports with
    | [] =>
        match given process with
        | Some p =>
            "No crash reports found for " ++ dq ++ p ++ dq ++ " in the last " ++
            show lastDays ++ " days."
        | None => "No crash reports found in the last " ++ show lastDays ++ " days."
        end
    | _ =>
        "Found " ++ show (Z.of_nat (List.length reports)) ++ " crash report(s)" ++
        (if maxReports <? Z.of_nat (List.length reports)
         then " (showing " ++ show maxReports ++ ")" else EmptyString) ++
        ":" ++ nl ++ nl ++ join (nl ++ nl) (report_items O limitedReports)
    end in
  (limitedReports, summary).

(** The [get_crash_logs] tool returns the summary. *)
Definition get_crash_logs (homedir : string) (process : option string)
  (lastDays maxReports : option Z) : string :=
  snd (getCrashLogs homedir process (number_or lastDays 7) (number_or maxReports 10)).

End Crash.

(** Reports ordered from the newest to the oldest. *)
Definition newest_first (reports : list CrashReport.t) : Prop :=
  StronglySorted (fun a b => CrashReport.date b <= CrashReport.date a) reports.

(** Whether a text begins, or ends, with white space. *)
Definition starts_with_space (s : string) : bool :=
  match s with
  | EmptyString => false
  | String c _ => is_space c
  end.

Fixpoint ends_in_space (s : string) : bool :=
  match s with
  | EmptyString => false
  | String c EmptyString => is_space c
  | String _ rest => ends_in_space rest
  end.

(** A report that a directory listing accounts for. *)
Definition accounted (path_join : string -> string -> string) (process : option string)
  (cutoffDate : Z) (dir : string) (files : list entry) (r : CrashReport.t) : Prop :=
  exists f content,
    In f files /\
    is_report (entry_name f) = true /\
    other_process process (entry_name f) = false /\
    entry_mtime f = Some (CrashReport.date r) /\
    cutoffDate <= CrashReport.date r /\
    entry_text f = Some content /\
    r = report_of path_join dir (entry_name f) (CrashReport.date r) content.

(* ------------------------------------------------------------------ *)
(** ** getSimulators *)

(** [s.replace(pattern, replacement)] for a string pattern: the first
    occurrence is replaced. *)
Fixpoint drop (n : nat) (s : string) : string :=
  match n, s with
  | O, _ => s
  | Datatypes.S n', String _ rest => drop n' rest
  | Datatypes.S _, EmptyString => EmptyString
  end.

Fixpoint replace_first (pattern replacement s : string) : string :=
  if prefix pattern s then replacement ++ drop (String.length pattern) s
  else
    match s with
    | EmptyString => EmptyString
    | String c rest => String c (replace_first pattern replacement rest)
    end.

(** [s.replace(/-/g, " ")]. *)
Fixpoint hyphens_to_spaces (s : string) : string :=
  match s with
  | EmptyString => EmptyString
  | String c rest =>
      String (if Ascii.eqb c "-" then " "%char else c) (hyphens_to_spaces rest)
  end.

Definition runtimeName (runtime : string) : string :=
  hyphens_to_spaces
    (replace_first "com.apple.CoreSimulator.SimRuntime." EmptyString runtime).

(** A device object of the JSON that [simctl list devices -j] prints. *)
Record simctl_device := SimctlDevice {
  listed_udid : string;
  listed_name : string;
  listed_state : string;
  listed_isAvailable : bool
}.

(** [data] is [Object.entries(JSON.parse(output).devices)], [None] when the
    command or the parsing threw. *)
Definition getSimulators (data : option (list (string * list simctl_device))) : list Simulator :=
  match data with
  | None => []
  | Some entries =>
      flat_map
        (fun '(runtime, devices) =>
           map (fun device =>
                  {| udid := listed_udid device;
                     name := listed_name device;
                     state := listed_state device;
                     runtime := runtimeName runtime;
                     isAvailable := listed_isAvailable device |})
               devices)
        entries
  end.

(** Whether a text holds a hyphen. *)
Fixpoint has_hyphen (s : string) : bool :=
  match s with
  | EmptyString => false
  | String c rest => Ascii.eqb c "-" || has_hyphen rest
  end.

(* ------------------------------------------------------------------ *)
(** ** A host for the examples *)

Definition is_word_char (c : ascii) : bool :=
  let n := nat_of_ascii c in
  ((Nat.leb 48 n && Nat.leb n 57) || (Nat.leb 65 n && Nat.leb n 90) ||
   (Nat.leb 97 n && Nat.leb n 122) || Nat.eqb n 32)%bool.

(** A regular-expression constructor to evaluate examples with. It is exact
    on the two kinds of pattern the examples use: a pattern of letters,
    digits and spaces is literal text, matched without regard to case, and
    the lone opening bracket is an unterminated character class. The
    theorems below hold for every constructor and do not use this one. *)
Definition sample_RegExp (pattern : string) : regexp :=
  if String.eqb pattern "[" then
    SyntaxError "SyntaxError: Invalid regular expression: /[/i: Unterminated character class"
  else if forallb is_word_char (list_ascii_of_string pattern) then
    Regex (plain_matcher pattern)
  else Regex (fun _ => false).

(** A report directory to evaluate examples with: paths joined with a
    slash, dates counted in days, one listing under the home of ada. *)
Definition sample_join (dir file : string) : string := dir ++ "/" ++ file.

Definition sample_files : list entry :=
  [ Entry "Safari-2024-01.crash" (Some 50) (Some ("Process: Safari" ++ nl ++ "Path: /Applications"));
    Entry "notes.txt" (Some 95) (Some "not a report");
    Entry "Mail-2024-02.ips" (Some 70) (Some "Process: Mail");
    Entry "Locked-2024-03.crash" None None;
    Entry "Finder-2024-04.diag" (Some 90) (Some "Process: Finder") ].

Definition sample_readdir (dir : string) : option (list entry) :=
  if String.eqb dir "/Users/ada/Library/Logs/DiagnosticReports" then Some sample_files
  else None.

Definition sample_days_ago (lastDays : Z) : Z := 100 - lastDays.

(* ------------------------------------------------------------------ *)
(** * Properties *)

(** ** Strings *)

Lemma append_nil_r (s : string) : s ++ EmptyString = s.
Proof. induction s as [|c s IH]; simpl; [reflexivity | now rewrite IH]. Qed.

Lemma append_assoc (a b c : string) : (a ++ b) ++ c = a ++ (b ++ c).
Proof. induction a as [|x a IH]; simpl; [reflexivity | now rewrite IH]. Qed.

Lemma count_LF_append (a b : string) :
  count_LF (a ++ b) = (count_LF a + count_LF b)%nat.
Proof. induction a as [|x a IH]; simpl; [reflexivity | rewrite IH; lia]. Qed.

Lemma split_not_nil (sep : ascii) (s : string) : split sep s <> [].
Proof.
  induction s as [|c s IH]; simpl; [discriminate|].
  destruct (Ascii.eqb c sep); [discriminate|].
  destruct (split sep s); [contradiction | discriminate].
Qed.

(** No line of [split LF] holds a line feed. *)
Lemma split_lines_clean (s : string) :
  Forall (fun l => count_LF l = O) (split LF s).
Proof.
  induction s as [|c s IH]; simpl.
  - constructor; [reflexivity | constructor].
  - destruct (Ascii.eqb c LF) eqn:E.
    + constructor; [reflexivity | exact IH].
    + destruct (split LF s) as [|l ls] eqn:Hs; [now apply split_not_nil in Hs|].
      inversion IH; subst. constructor; [simpl; rewrite E; assumption | assumption].
Qed.

Lemma count_LF_with_LF (lines : list string) :
  Forall (fun l => count_LF l = O) lines ->
  count_LF (with_LF lines) = List.length lines.
Proof.
  induction 1 as [|l ls Hl _ IH]; simpl; [reflexivity|].
  rewrite count_LF_append, Hl. simpl. now rewrite IH.
Qed.

Lemma with_LF_app (a b : list string) :
  with_LF (a ++ b)%list = with_LF a ++ with_LF b.
Proof.
  induction a as [|l a IH]; simpl; [reflexivity|].
  now rewrite IH, !append_assoc.
Qed.

(** ** Folding a line loop over chunks *)

Lemma fold_chunks {S} (body : S -> string -> S) (chunks : list string) (s : S) :
  fold_left (fun s data => fold_left body (split LF data) s) chunks s =
  fold_left body (flat_map (split LF) chunks) s.
Proof.
  revert s. induction chunks as [|d ds IH]; intros s; simpl; [reflexivity|].
  now rewrite fold_left_app, IH.
Qed.

Lemma fold_left_map_event {S} (on : event -> S -> S) (k : string -> event)
  (chunks : list string) (s : S) :
  fold_left (fun s e => on e s) (map k chunks) s =
  fold_left (fun s d => on (k d) s) chunks s.
Proof.
  revert s. induction chunks as [|d ds IH]; intros s; simpl; [reflexivity | apply IH].
Qed.

(** ** The bounded collecting loop *)

Lemma collect_lines (maxLines : Z) (lines : list string) (s : collector) :
  fold_left (collect_line maxLines) lines s =
  let kept := firstn (room maxLines (lineCount s)) lines in
  Collector (output s ++ with_LF kept) (lineCount s + Z.of_nat (List.length kept))
            (settled s) (kills s).
Proof.
  revert s. induction lines as [|l ls IH]; intros [o k r ks]; simpl.
  - rewrite firstn_nil. simpl. now rewrite append_nil_r, Z.add_0_r.
  - unfold collect_line at 2. simpl. destruct (k <? maxLines) eqn:E.
    + apply Z.ltb_lt in E. rewrite IH. unfold keep, room. simpl.
      replace (Z.to_nat (maxLines - k)) with (Datatypes.S (Z.to_nat (maxLines - (k + 1))))
        by lia.
      simpl. f_equal; [now rewrite !append_assoc | lia].
    + apply Z.ltb_ge in E. rewrite IH. unfold room. simpl.
      replace (Z.to_nat (maxLines - k)) with O by lia.
      simpl. now rewrite append_nil_r, Z.add_0_r.
Qed.

Lemma search_lines (matcher : string -> bool) (maxLines : Z) (lines : list string)
  (s : collector) :
  fold_left (search_line matcher maxLines) lines s =
  fold_left (collect_line maxLines) (filter matcher lines) s.
Proof.
  revert s. induction lines as [|l ls IH]; intros s; simpl; [reflexivity|].
  unfold search_line at 2. destruct (matcher l); simpl.
  - rewrite IH. reflexivity.
  - apply IH.
Qed.

Lemma device_lines (maxLines : Z) (lines : list string) (s : collector) :
  fold_left (device_line maxLines) lines s =
  fold_left (collect_line maxLines) (filter trim_truthy lines) s.
Proof.
  revert s. induction lines as [|l ls IH]; intros s; simpl; [reflexivity|].
  unfold device_line at 2. destruct (trim_truthy l); simpl.
  - rewrite andb_true_r, IH. reflexivity.
  - rewrite andb_false_r. apply IH.
Qed.

Lemma Forall_firstn {A} (P : A -> Prop) (n : nat) (l : list A) :
  Forall P l -> Forall P (firstn n l).
Proof.
  intros H. revert n. induction H as [|x l Hx _ IH]; intros [|n]; simpl;
    constructor; auto.
Qed.

Lemma Forall_filter {A} (P : A -> Prop) (f : A -> bool) (l : list A) :
  Forall P l -> Forall P (filter f l).
Proof.
  induction 1 as [|x l Hx _ IH]; simpl; [constructor|].
  destruct (f x); [constructor|]; assumption.
Qed.

Lemma chunk_lines_clean (chunks : list string) :
  Forall (fun l => count_LF l = O) (flat_map (split LF) chunks).
Proof.
  induction chunks as [|d ds IH]; simpl; [constructor|].
  apply Forall_app. split; [apply split_lines_clean | exact IH].
Qed.

(** Closed form of a loop that starts from the fresh state. *)
Lemma collect_from_fresh (maxLines : Z) (lines : list string) :
  fold_left (collect_line maxLines) lines fresh =
  let kept := firstn (Z.to_nat maxLines) lines in
  Collector (with_LF kept) (Z.of_nat (List.length kept)) None [].
Proof.
  rewrite collect_lines. unfold fresh, room. simpl. now rewrite Z.sub_0_r.
Qed.

Lemma collect_lines_count (maxLines : Z) (lines : list string) (s : collector) :
  0 <= lineCount s <= Z.max 0 maxLines ->
  0 <= lineCount (fold_left (collect_line maxLines) lines s) <= Z.max 0 maxLines.
Proof.
  intros H. rewrite collect_lines. simpl.
  pose proof (firstn_le_length (room maxLines (lineCount s)) lines) as L1.
  assert (L2 : (List.length (firstn (room maxLines (lineCount s)) lines)
                <= room maxLines (lineCount s))%nat).
  { rewrite length_firstn. apply Nat.le_min_l. }
  unfold room in *. lia.
Qed.

Lemma collect_line_full (maxLines : Z) (s : collector) (line : string) :
  maxLines <= lineCount s -> collect_line maxLines s line = s.
Proof.
  intros H. unfold collect_line. apply Z.ltb_ge in H. now rewrite H.
Qed.

Lemma collect_lines_full (maxLines : Z) (lines : list string) (s : collector) :
  maxLines <= lineCount s -> fold_left (collect_line maxLines) lines s = s.
Proof.
  intros H. induction lines as [|l ls IH]; simpl; [reflexivity|].
  now rewrite collect_line_full.
Qed.

Lemma resolve_lineCount v s : lineCount (resolve v s) = lineCount s.
Proof. unfold resolve. now destruct (settled s). Qed.

Lemma resolve_output v s : output (resolve v s) = output s.
Proof. unfold resolve. now destruct (settled s). Qed.

Lemma resolve_kills v s : kills (resolve v s) = kills s.
Proof. unfold resolve. now destruct (settled s). Qed.

Lemma resolve_settled v s : settled (resolve v s) <> None.
Proof. unfold resolve. destruct (settled s) eqn:E; simpl; congruence. Qed.

Lemma getMacLogs_on_count (maxLines : Z) (e : event) (s : collector) :
  0 <= lineCount s <= Z.max 0 maxLines ->
  0 <= lineCount (getMacLogs_on maxLines e s) <= Z.max 0 maxLines.
Proof.
  intros H. destruct e; simpl; rewrite ?resolve_lineCount; simpl; try assumption.
  now apply collect_lines_count.
Qed.

Lemma searchLogs_on_count query matcher (maxLines : Z) (e : event) (s : collector) :
  0 <= lineCount s <= Z.max 0 maxLines ->
  0 <= lineCount (searchLogs_on query matcher maxLines e s) <= Z.max 0 maxLines.
Proof.
  intros H. destruct e; simpl; rewrite ?resolve_lineCount; simpl; try assumption.
  rewrite search_lines. now apply collect_lines_count.
Qed.

(** An invariant of the listener is an invariant of the run. *)
Lemma fold_invariant {S} (P : S -> Prop) (on : event -> S -> S) :
  (forall e s, P s -> P (on e s)) ->
  forall evs s, P s -> P (fold_left (fun s e => on e s) evs s).
Proof.
  intros Hon evs. induction evs as [|e evs IH]; intros s Hs; simpl; auto.
Qed.

Lemma getMacLogs_stdout_run subsystem process lastMinutes maxLines chunks :
  run (getMacLogs subsystem process lastMinutes maxLines) (map Stdout chunks) =
  let kept := firstn (Z.to_nat maxLines) (flat_map (split LF) chunks) in
  Collector (with_LF kept) (Z.of_nat (List.length kept)) None [].
Proof.
  unfold run. simpl. rewrite fold_left_map_event. simpl.
  unfold getMacLogs_stdout. rewrite fold_chunks. apply collect_from_fresh.
Qed.

Lemma searchLogs_on_stdout_run query matcher maxLines chunks :
  fold_left (fun s e => searchLogs_on query matcher maxLines e s) (map Stdout chunks) fresh =
  let kept := firstn (Z.to_nat maxLines) (filter matcher (flat_map (split LF) chunks)) in
  Collector (with_LF kept) (Z.of_nat (List.length kept)) None [].
Proof.
  rewrite fold_left_map_event. simpl.
  rewrite fold_chunks, search_lines. apply collect_from_fresh.
Qed.

Lemma searchLogs_matcher RegExp_i query lastMinutes maxLines useRegex matcher :
  matcher_of RegExp_i query useRegex = Some matcher ->
  searchLogs RegExp_i query lastMinutes maxLines useRegex =
  Call [("log", ["show"; "--last"; show lastMinutes ++ "m"; "--style"; "compact"])]
       (Some 30000) (searchLogs_on query matcher maxLines) fresh.
Proof.
  unfold matcher_of, searchLogs. destruct useRegex.
  - destruct (RegExp_i query); [intros [= <-]; reflexivity | discriminate].
  - intros [= <-]. reflexivity.
Qed.

Lemma kept_count (n : nat) (lines : list string) :
  Forall (fun l => count_LF l = O) lines ->
  (count_LF (with_LF (firstn n lines)) = List.length (firstn n lines) /\
   List.length (firstn n lines) <= n)%nat.
Proof.
  intros H. split.
  - apply count_LF_with_LF, Forall_firstn, H.
  - rewrite length_firstn. apply Nat.le_min_l.
Qed.

(** C1. Whatever the cap [N] and whatever chunks arrive on stdout, the
    collecting loops of [getMacLogs] and [searchLogs] leave at most [N] lines
    in [output], [lineCount] being the number of lines they put there; under
    every trace of events [lineCount] stays within the cap; and once
    [lineCount] has reached [N] a further line, and a further chunk, leaves
    the state as it was. *)
Theorem collecting_loop_bounded :
  forall (RegExp_i : string -> regexp) (N : Z) (subsystem process : option string)
         (query : string) (lastMinutes : Z) (useRegex : bool),
    let fetch := getMacLogs subsystem process lastMinutes N in
    let search := searchLogs RegExp_i query lastMinutes N useRegex in
    (forall chunks,
        (count_LF (output (run fetch (map Stdout chunks))) <= Z.to_nat N)%nat /\
        lineCount (run fetch (map Stdout chunks)) =
          Z.of_nat (count_LF (output (run fetch (map Stdout chunks)))) /\
        (count_LF (output (run search (map Stdout chunks))) <= Z.to_nat N)%nat /\
        lineCount (run search (map Stdout chunks)) =
          Z.of_nat (count_LF (output (run search (map Stdout chunks))))) /\
    (forall evs,
        0 <= lineCount (run fetch evs) <= Z.max 0 N /\
        0 <= lineCount (run search evs) <= Z.max 0 N) /\
    (forall matcher s line,
        N <= lineCount s ->
        collect_line N s line = s /\ search_line matcher N s line = s) /\
    (forall s data,
        N <= lineCount s ->
        listener fetch (Stdout data) s = s /\ listener search (Stdout data) s = s).
Proof.
  intros RegExp_i N subsystem process query lastMinutes useRegex fetch search.
  assert (Hsearch : listener search = deaf /\ init search = resolve
                      match RegExp_i query with
                      | SyntaxError e =>
                          "Invalid regex pattern: " ++ query ++ nl ++ "Error: " ++ e
                      | Regex _ => EmptyString
                      end fresh \/
                    exists m, search = Call (spawned search) (Some 30000)
                                            (searchLogs_on query m N) fresh).
  { subst search. unfold searchLogs. destruct useRegex.
    - destruct (RegExp_i query); [right; eexists; reflexivity | left; split; reflexivity].
    - right; eexists; reflexivity. }
  assert (Hdeaf : forall (c : call collector) evs, listener c = deaf -> run c evs = init c).
  { intros c evs E. unfold run. rewrite E.
    induction evs as [|e evs IH]; simpl; [reflexivity | exact IH]. }
  repeat split.
  - subst fetch. rewrite getMacLogs_stdout_run. simpl.
    destruct (kept_count (Z.to_nat N) _ (chunk_lines_clean chunks)) as [-> H]. exact H.
  - subst fetch. rewrite getMacLogs_stdout_run. simpl.
    now destruct (kept_count (Z.to_nat N) _ (chunk_lines_clean chunks)) as [-> _].
  - destruct Hsearch as [[Hl Hi] | [m Hm]].
    + rewrite (Hdeaf _ _ Hl), Hi. simpl. lia.
    + rewrite Hm. unfold run. simpl. rewrite searchLogs_on_stdout_run. simpl.
      destruct (kept_count (Z.to_nat N) _
                  (Forall_filter _ m _ (chunk_lines_clean chunks))) as [-> H]. exact H.
  - destruct Hsearch as [[Hl Hi] | [m Hm]].
    + rewrite (Hdeaf _ _ Hl), Hi. reflexivity.
    + rewrite Hm. unfold run. simpl. rewrite searchLogs_on_stdout_run. simpl.
      now destruct (kept_count (Z.to_nat N) _
                      (Forall_filter _ m _ (chunk_lines_clean chunks))) as [-> _].
  - apply (fold_invariant (fun s => 0 <= lineCount s <= Z.max 0 N)
             (getMacLogs_on N) (getMacLogs_on_count N)). simpl. lia.
  - apply (fold_invariant (fun s => 0 <= lineCount s <= Z.max 0 N)
             (getMacLogs_on N) (getMacLogs_on_count N)). simpl. lia.
  - destruct Hsearch as [[Hl Hi] | [m Hm]].
    + rewrite (Hdeaf _ _ Hl), Hi. simpl. lia.
    + rewrite Hm. unfold run. simpl.
      apply (fold_invariant (fun s => 0 <= lineCount s <= Z.max 0 N)
               (searchLogs_on query m N) (searchLogs_on_count query m N)). simpl. lia.
  - destruct Hsearch as [[Hl Hi] | [m Hm]].
    + rewrite (Hdeaf _ _ Hl), Hi. simpl. lia.
    + rewrite Hm. unfold run. simpl.
      apply (fold_invariant (fun s => 0 <= lineCount s <= Z.max 0 N)
               (searchLogs_on query m N) (searchLogs_on_count query m N)). simpl. lia.
  - now apply collect_line_full.
  - unfold search_line. apply Z.ltb_ge in H. now rewrite H, andb_false_r.
  - subst fetch. simpl. unfold getMacLogs_stdout. now apply collect_lines_full.
  - destruct Hsearch as [[Hl Hi] | [m Hm]].
    + rewrite Hl. reflexivity.
    + rewrite Hm. simpl. rewrite search_lines. now apply collect_lines_full.
Qed.

Lemma collecting_loop_bounded_witness :
  let full := Collector ("a" ++ nl ++ "b" ++ nl) 2 None [] in
  2 <= lineCount full /\
  collect_line 2 full "c" = full /\
  search_line (plain_matcher "c") 2 full "c" = full /\
  (count_LF (output (run (getMacLogs None None 5 2)
                         (map Stdout ["a" ++ nl ++ "b"; "c" ++ nl ++ "d"]))) <= 2)%nat.
Proof.
  pose proof (collecting_loop_bounded sample_RegExp 2 None None "c" 5 false) as H.
  simpl in H. destruct H as (Hchunks & _ & Hline & _).
  assert (Hfull : 2 <= lineCount (Collector ("a" ++ nl ++ "b" ++ nl) 2 None [])).
  { simpl. lia. }
  split; [exact Hfull|].
  split; [exact (proj1 (Hline (plain_matcher "c") _ "c" Hfull))|].
  split; [exact (proj2 (Hline (plain_matcher "c") _ "c" Hfull))|].
  exact (proj1 (Hchunks ["a" ++ nl ++ "b"; "c" ++ nl ++ "d"])).
Defined.

(** ** Search while capturing *)

(** C8. In [searchLogs] the matcher decides first: a line it rejects leaves
    [output] and [lineCount] as they were, a line it accepts is treated as
    the bounded collecting loop treats a line; so a chunk of rejected lines
    changes nothing, and after any chunks [output] holds exactly the first
    [maxLines] matching lines and [lineCount] is their number. *)
Theorem search_counts_matches_only :
  forall (RegExp_i : string -> regexp) (query : string) (lastMinutes N : Z)
         (useRegex : bool) (matcher : string -> bool),
    matcher_of RegExp_i query useRegex = Some matcher ->
    let search := searchLogs RegExp_i query lastMinutes N useRegex in
    (forall s line, matcher line = false -> search_line matcher N s line = s) /\
    (forall s line, matcher line = true ->
                    search_line matcher N s line = collect_line N s line) /\
    (forall s data,
        Forall (fun line => matcher line = false) (split LF data) ->
        listener search (Stdout data) s = s) /\
    (forall chunks,
        let kept := firstn (Z.to_nat N) (filter matcher (flat_map (split LF) chunks)) in
        output (run search (map Stdout chunks)) = with_LF kept /\
        lineCount (run search (map Stdout chunks)) = Z.of_nat (List.length kept)).
Proof.
  intros RegExp_i query lastMinutes N useRegex matcher Hm search.
  subst search. rewrite (searchLogs_matcher _ _ _ _ _ _ Hm).
  split; [|split; [|split]].
  - intros s line H. unfold search_line. now rewrite H.
  - intros s line H. unfold search_line, collect_line. now rewrite H.
  - intros s data H. simpl. induction H as [|l ls Hl _ IH]; simpl; [reflexivity|].
    unfold search_line at 2. rewrite Hl. simpl. exact IH.
  - intros chunks kept. unfold run. simpl. rewrite searchLogs_on_stdout_run.
    split; reflexivity.
Qed.

Lemma search_counts_matches_only_witness :
  matcher_of sample_RegExp "err" false = Some (plain_matcher "err") /\
  search_line (plain_matcher "err") 2 fresh "all fine" = fresh /\
  output (run (searchLogs sample_RegExp "err" 30 2 false)
              (map Stdout ["ok" ++ nl ++ "ERR 1" ++ nl;
                           "fine" ++ nl ++ "err 2" ++ nl ++ "err 3"])) =
  "ERR 1" ++ nl ++ "err 2" ++ nl.
Proof.
  assert (Hm : matcher_of sample_RegExp "err" false = Some (plain_matcher "err"))
    by reflexivity.
  pose proof (search_counts_matches_only sample_RegExp "err" 30 2 false _ Hm) as H.
  simpl in H. destruct H as (Hno & _ & _ & Hrun).
  split; [exact Hm|].
  split; [apply Hno; reflexivity|].
  exact (proj1 (Hrun ["ok" ++ nl ++ "ERR 1" ++ nl;
                      "fine" ++ nl ++ "err 2" ++ nl ++ "err 3"])).
Defined.

(** ** Splitting chunk by chunk *)

Lemma split_length (s : string) :
  List.length (split LF s) = (count_LF s + 1)%nat.
Proof.
  induction s as [|c s IH]; simpl; [reflexivity|].
  destruct (Ascii.eqb c LF); simpl; [now rewrite IH|].
  destruct (split LF s) as [|l ls] eqn:Hs; [now apply split_not_nil in Hs|].
  simpl in *. lia.
Qed.

Lemma hd_tl_split (s : string) :
  hd EmptyString (split LF s) :: tl (split LF s) = split LF s.
Proof.
  destruct (split LF s) eqn:Hs; [now apply split_not_nil in Hs | reflexivity].
Qed.

(** Splitting a text cut in two: the fragment that ends the first part and
    the fragment that starts the second are one line of the whole. *)
Lemma split_append (a b : string) :
  split LF (a ++ b) =
  app (removelast (split LF a))
      ((last (split LF a) EmptyString ++ hd EmptyString (split LF b)) :: tl (split LF b)).
Proof.
  induction a as [|c a IH].
  - simpl. symmetry. apply hd_tl_split.
  - cbn [append split]. destruct (Ascii.eqb c LF).
    + rewrite IH.
      destruct (split LF a) as [|l ls] eqn:Hs; [now apply split_not_nil in Hs|].
      reflexivity.
    + rewrite IH.
      destruct (split LF a) as [|l ls] eqn:Hs; [now apply split_not_nil in Hs|].
      destruct ls as [|x xs]; reflexivity.
Qed.

Lemma ends_LF_last (a : string) :
  ends_LF a = true -> last (split LF a) EmptyString = EmptyString.
Proof.
  induction a as [|c a IH]; [reflexivity|].
  intros H. cbn [split].
  assert (Ha : a = EmptyString /\ Ascii.eqb c LF = true \/
               a <> EmptyString /\ ends_LF a = true).
  { destruct a; [left; split; [reflexivity | exact H] | right; split; [discriminate | exact H]]. }
  destruct Ha as [[-> E] | [Hne Ha]].
  - rewrite E. reflexivity.
  - specialize (IH Ha).
    destruct (split LF a) as [|l ls] eqn:Hs; [now apply split_not_nil in Hs|].
    destruct (Ascii.eqb c LF).
    + exact IH.
    + destruct ls as [|x xs]; [|exact IH].
      simpl in IH. subst l. destruct a as [|d a]; [contradiction|].
      exfalso. cbn [split] in Hs. destruct (Ascii.eqb d LF).
      * injection Hs as Hs. now apply split_not_nil in Hs.
      * destruct (split LF a) as [|l' ls']; discriminate.
Qed.

Lemma split_append_aligned (a b : string) :
  ends_LF a = true ->
  filter nonempty (split LF (a ++ b)) =
  filter nonempty (split LF a ++ split LF b)%list.
Proof.
  intros H. rewrite split_append, (ends_LF_last a H). cbn [append].
  rewrite hd_tl_split.
  pose proof (app_removelast_last EmptyString (split_not_nil LF a)) as Hs.
  rewrite (ends_LF_last a H) in Hs.
  rewrite Hs at 2. rewrite !filter_app. simpl. now rewrite app_nil_r.
Qed.

Lemma whole_count (chunks : list string) :
  List.length (lines_of chunks) = (count_LF (whole chunks) + List.length chunks)%nat.
Proof.
  induction chunks as [|c cs IH]; simpl; [reflexivity|].
  rewrite length_app, split_length, count_LF_append. fold (lines_of cs). lia.
Qed.

Lemma aligned_chunks (chunks : list string) :
  Forall (fun c => ends_LF c = true) (removelast chunks) ->
  filter nonempty (lines_of chunks) = filter nonempty (split LF (whole chunks)).
Proof.
  induction chunks as [|c cs IH]; intros H.
  - reflexivity.
  - destruct cs as [|d ds].
    + simpl. now rewrite app_nil_r, append_nil_r.
    + change (removelast (c :: d :: ds)) with (c :: removelast (d :: ds)) in H.
      inversion H as [|? ? Hc Hrest]; subst.
      change (whole (c :: d :: ds)) with (c ++ whole (d :: ds)).
      rewrite (split_append_aligned _ _ Hc).
      change (lines_of (c :: d :: ds)) with (split LF c ++ lines_of (d :: ds))%list.
      rewrite !filter_app. now rewrite (IH Hrest).
Qed.

Lemma lines_of_one (text : string) : lines_of [text] = split LF text.
Proof. unfold lines_of. simpl. apply app_nil_r. Qed.

(** C3, as the claim states it, fails: the text abcd arriving as the chunks
    ab and cd is processed as the two lines ab and cd, not as the one line
    abcd the whole text gives. *)
Lemma chunk_boundary_splits_a_line :
  whole ["ab"; "cd"] = "abcd" /\
  lines_of ["ab"; "cd"] = ["ab"; "cd"] /\
  lines_of [whole ["ab"; "cd"]] = ["abcd"] /\
  lines_of ["ab"; "cd"] <> lines_of [whole ["ab"; "cd"]].
Proof.
  split; [reflexivity|]. split; [reflexivity|]. split; [reflexivity|].
  vm_compute. discriminate.
Qed.

(** C3, amended. The listeners of [searchLogs] and [watchForPattern] split
    every chunk on its own and carry nothing from one chunk to the next:
    over a sequence of chunks their loop bodies run over the lines of the
    first chunk, then those of the second, and so on; these are as many
    lines as the text has line feeds plus one per chunk, a fragment that
    ends a chunk being a line of its own. When every chunk but the last is
    empty or ends with a line feed, the non-empty lines are the same
    sequence as the non-empty lines of the whole text fed in one chunk. *)
Theorem lines_split_chunk_by_chunk :
  forall chunks : list string,
    (forall query matcher maxLines s,
        fold_left (fun s e => searchLogs_on query matcher maxLines e s) (map Stdout chunks) s =
        fold_left (search_line matcher maxLines) (lines_of chunks) s) /\
    (forall matcher s,
        fold_left (fun s e => watchForPattern_on matcher e s) (map Stdout chunks) s =
        fold_left (watch_line matcher) (lines_of chunks) s) /\
    List.length (lines_of chunks) = (count_LF (whole chunks) + List.length chunks)%nat /\
    (Forall (fun c => ends_LF c = true) (removelast chunks) ->
     filter nonempty (lines_of chunks) = filter nonempty (lines_of [whole chunks])).
Proof.
  intros chunks. split; [|split; [|split]].
  - intros query matcher maxLines s. rewrite fold_left_map_event. simpl.
    apply fold_chunks.
  - intros matcher s. rewrite fold_left_map_event. simpl. apply fold_chunks.
  - apply whole_count.
  - intros H. rewrite lines_of_one. now apply aligned_chunks.
Qed.

Lemma lines_split_chunk_by_chunk_witness :
  let chunks := ["a" ++ nl ++ "b" ++ nl; "c" ++ nl ++ "d"] in
  Forall (fun c => ends_LF c = true) (removelast chunks) /\
  filter nonempty (lines_of chunks) = ["a"; "b"; "c"; "d"] /\
  filter nonempty (lines_of [whole chunks]) = ["a"; "b"; "c"; "d"].
Proof.
  intros chunks.
  assert (H : Forall (fun c => ends_LF c = true) (removelast chunks)).
  { subst chunks. simpl. constructor; [reflexivity | constructor]. }
  split; [exact H|].
  pose proof (proj2 (proj2 (proj2 (lines_split_chunk_by_chunk chunks))) H) as E.
  split; [reflexivity|].
  rewrite <- E. reflexivity.
Defined.

(** ** Watching for a pattern *)

Lemma find_append {A} (f : A -> bool) (a b : list A) :
  find f (a ++ b) = match find f a with Some x => Some x | None => find f b end.
Proof.
  induction a as [|x a IH]; simpl; [reflexivity|]. now destruct (f x).
Qed.

Lemma absorb_absorb (t1 t2 : string) (h1 h2 : option string) (s : watcher) :
  absorb t2 h2 (absorb t1 h1 s) = absorb (t1 ++ t2) (first_hit h1 h2) s.
Proof.
  destruct s as [o f ml r ks].
  destruct h1, h2, f; simpl; now rewrite append_assoc.
Qed.

Lemma watch_line_absorb (matcher : string -> bool) (s : watcher) (line : string) :
  watch_line matcher s line =
  absorb (line ++ nl) (if matcher line then Some line else None) s.
Proof.
  destruct s as [o f ml r ks]. unfold watch_line. simpl.
  destruct f, (matcher line); reflexivity.
Qed.

Lemma watch_lines (matcher : string -> bool) (lines : list string) (s : watcher) :
  fold_left (watch_line matcher) lines s =
  absorb (with_LF lines) (find matcher lines) s.
Proof.
  revert s. induction lines as [|l ls IH]; intros s; simpl.
  - destruct s. simpl. now rewrite append_nil_r.
  - rewrite IH, watch_line_absorb, absorb_absorb, append_assoc.
    now destruct (matcher l).
Qed.

Lemma watch_data (matcher : string -> bool) (evs : list event) (s : watcher) :
  Forall (fun e => is_data e = true) evs ->
  fold_left (fun s e => watchForPattern_on matcher e s) evs s =
  absorb (watch_text evs) (find matcher (stdout_lines evs)) s.
Proof.
  intros H. revert s. induction H as [|e evs He _ IH]; intros s.
  - destruct s. simpl. now rewrite append_nil_r.
  - destruct e; try discriminate; cbn [fold_left watchForPattern_on].
    + rewrite IH, watch_lines, absorb_absorb. cbn [stdout_lines flat_map watch_text].
      rewrite find_append. unfold first_hit, stdout_lines.
      now destruct (find matcher (split LF data)).
    + rewrite IH.
      change (Watcher (w_output s ++ data) (w_found s) (w_matchedLine s)
                      (w_settled s) (w_kills s)) with (absorb data None s).
      now rewrite absorb_absorb.
Qed.

(** Only the first resolution counts. *)
Lemma w_resolve_settled v r s : w_settled s = Some r -> w_resolve v s = s.
Proof. intros H. unfold w_resolve. now rewrite H. Qed.

Lemma watch_lines_settled matcher lines s :
  w_settled (fold_left (watch_line matcher) lines s) = w_settled s.
Proof.
  rewrite watch_lines. unfold absorb.
  destruct (find matcher lines); [destruct (w_found s)|]; reflexivity.
Qed.

Lemma watch_settled_stable (matcher : string -> bool) (r : watch_result)
  (evs : list event) (s : watcher) :
  w_settled s = Some r ->
  w_settled (fold_left (fun s e => watchForPattern_on matcher e s) evs s) = Some r.
Proof.
  revert s. induction evs as [|e evs IH]; intros s H; [exact H|].
  simpl. apply IH. destruct e; simpl.
  - now rewrite watch_lines_settled.
  - exact H.
  - now rewrite (w_resolve_settled _ r).
  - now rewrite (w_resolve_settled _ r).
  - destruct (w_found s); simpl; [exact H|].
    unfold w_resolve, w_kill. simpl. now rewrite H.
Qed.

(** After a match, no listener sends a signal or touches the match. *)
Lemma watch_found_stable (matcher : string -> bool) (evs : list event) (s : watcher) :
  w_found s = true ->
  let s' := fold_left (fun s e => watchForPattern_on matcher e s) evs s in
  w_found s' = true /\ w_matchedLine s' = w_matchedLine s /\ w_kills s' = w_kills s.
Proof.
  revert s. induction evs as [|e evs IH]; intros s H; [now repeat split|].
  cbn [fold_left].
  assert (Hstep : w_found (watchForPattern_on matcher e s) = true /\
                  w_matchedLine (watchForPattern_on matcher e s) = w_matchedLine s /\
                  w_kills (watchForPattern_on matcher e s) = w_kills s).
  { destruct e; simpl.
    - rewrite watch_lines. unfold absorb. rewrite H.
      destruct (find matcher (split LF data)); simpl; auto.
    - auto.
    - unfold w_resolve. destruct (w_settled s); simpl; auto.
    - unfold w_resolve. destruct (w_settled s); simpl; auto.
    - rewrite H. simpl. auto. }
  destruct Hstep as (Hf & Hm & Hk).
  destruct (IH _ Hf) as (If & Im & Ik). cbv zeta.
  rewrite Im, Ik, Hm, Hk. auto.
Qed.

Lemma watchForPattern_matcher RegExp_i pattern useRegex process timeoutSeconds matcher :
  matcher_of RegExp_i pattern useRegex = Some matcher ->
  watchForPattern RegExp_i pattern useRegex process timeoutSeconds =
  Call (spawned (watchForPattern RegExp_i pattern useRegex process timeoutSeconds))
       (Some (timeoutSeconds * 1000)) (watchForPattern_on matcher) w_fresh.
Proof.
  unfold matcher_of, watchForPattern. destruct useRegex.
  - destruct (RegExp_i pattern); [intros [= <-]; reflexivity | discriminate].
  - intros [= <-]. reflexivity.
Qed.

Lemma run_app {S} (c : call S) (a b : list event) :
  run c (a ++ b) = fold_left (fun s e => listener c e s) b (run c a).
Proof. unfold run. apply fold_left_app. Qed.

Lemma watch_text_app (a b : list event) :
  watch_text (a ++ b) = watch_text a ++ watch_text b.
Proof.
  induction a as [|e a IH]; simpl; [reflexivity|].
  destruct e; rewrite ?IH, ?append_assoc; reflexivity.
Qed.

(** Once the line is found, output is still appended and nothing else moves
    until [close] or [error]; the timer in particular does nothing. *)
Lemma watch_after_found (matcher : string -> bool) (mid : list event) (s : watcher) :
  w_found s = true ->
  Forall (fun e => is_end e = false) mid ->
  fold_left (fun s e => watchForPattern_on matcher e s) mid s =
  Watcher (w_output s ++ watch_text mid) true (w_matchedLine s) (w_settled s) (w_kills s).
Proof.
  intros Hf H. revert s Hf. induction H as [|e mid He _ IH]; intros s Hf.
  - destruct s. simpl in *. subst. now rewrite append_nil_r.
  - destruct e; try discriminate; cbn [fold_left watchForPattern_on watch_text].
    + rewrite watch_lines. unfold absorb. rewrite Hf.
      destruct (find matcher (split LF data)); rewrite IH by reflexivity; simpl;
        rewrite ?Hf, append_assoc; reflexivity.
    + rewrite IH by exact Hf. simpl. now rewrite append_assoc.
    + rewrite Hf. simpl. now apply IH.
Qed.

(** C4. When some stdout line matches before the call is resolved,
    [watchForPattern] resolves, at the close of the child, with
    [found = true] and [matchedLine] the first matching line in the order
    the lines were processed; the loop body that meets this line, and only
    it, sends SIGTERM to the child. *)
Theorem watch_reports_first_match :
  forall (RegExp_i : string -> regexp) (pattern : string) (useRegex : bool)
         (process : option string) (timeoutSeconds : Z) (matcher : string -> bool)
         (pre mid post : list event) (line : string),
    matcher_of RegExp_i pattern useRegex = Some matcher ->
    Forall (fun e => is_data e = true) pre ->
    find matcher (stdout_lines pre) = Some line ->
    Forall (fun e => is_end e = false) mid ->
    let c := watchForPattern RegExp_i pattern useRegex process timeoutSeconds in
    w_settled (run c (pre ++ mid ++ Close :: post)) =
      Some (WatchResult true line (watch_text (pre ++ mid))) /\
    w_kills (run c (pre ++ mid ++ Close :: post)) = [SIGTERM] /\
    (forall s l, w_found s = false -> matcher l = false ->
                 w_found (watch_line matcher s l) = false /\
                 w_kills (watch_line matcher s l) = w_kills s) /\
    (forall s l, w_found s = false -> matcher l = true ->
                 w_found (watch_line matcher s l) = true /\
                 w_matchedLine (watch_line matcher s l) = l /\
                 w_kills (watch_line matcher s l) = (w_kills s ++ [SIGTERM])%list).
Proof.
  intros RegExp_i pattern useRegex process timeoutSeconds matcher pre mid post line
         Hm Hpre Hfind Hmid c.
  subst c. rewrite (watchForPattern_matcher _ _ _ _ _ _ Hm).
  set (c := Call _ _ _ _).
  assert (Hrun : run c (pre ++ mid) =
                 Watcher (watch_text (pre ++ mid)) true line None [SIGTERM]).
  { rewrite run_app. unfold run. subst c. cbn [listener init].
    rewrite (watch_data matcher pre w_fresh Hpre), Hfind. cbn [absorb w_fresh w_found].
    rewrite watch_after_found; [|reflexivity | exact Hmid]. simpl.
    now rewrite watch_text_app. }
  assert (Hclose : run c (pre ++ mid ++ [Close]) =
                   Watcher (watch_text (pre ++ mid)) true line
                           (Some (WatchResult true line (watch_text (pre ++ mid))))
                           [SIGTERM]).
  { rewrite app_assoc, run_app, Hrun. reflexivity. }
  replace (pre ++ mid ++ Close :: post)%list with ((pre ++ mid ++ [Close]) ++ post)%list
    by (rewrite <- !app_assoc; reflexivity).
  rewrite run_app, Hclose. subst c. cbn [listener].
  split; [|split; [|split]].
  - now apply watch_settled_stable.
  - now destruct (watch_found_stable matcher post
                    (Watcher (watch_text (pre ++ mid)) true line
                       (Some (WatchResult true line (watch_text (pre ++ mid))))
                       [SIGTERM]) eq_refl) as (_ & _ & ->).
  - intros s l Hf Hl. rewrite watch_line_absorb, Hl. simpl. auto.
  - intros s l Hf Hl. rewrite watch_line_absorb, Hl. simpl. rewrite Hf. simpl. auto.
Qed.

Lemma watch_reports_first_match_witness :
  let pre := [Stdout ("boot" ++ nl ++ "Connection Established to host" ++ nl ++ "up");
              Stderr "noise";
              Stdout ("connection established again" ++ nl)] in
  matcher_of sample_RegExp "connection established" true =
    Some (plain_matcher "connection established") /\
  find (plain_matcher "connection established") (stdout_lines pre) =
    Some "Connection Established to host" /\
  found_line (run (watchForPattern sample_RegExp "connection established" true None 30)
                  (pre ++ [Timer] ++ Close :: [Timer])) =
    Some (true, "Connection Established to host").
Proof.
  intros pre.
  assert (Hm : matcher_of sample_RegExp "connection established" true =
               Some (plain_matcher "connection established")) by reflexivity.
  assert (Hpre : Forall (fun e => is_data e = true) pre).
  { subst pre. repeat constructor. }
  assert (Hfind : find (plain_matcher "connection established") (stdout_lines pre) =
                  Some "Connection Established to host") by reflexivity.
  assert (Hmid : Forall (fun e => is_end e = false) [Timer]) by (repeat constructor).
  split; [exact Hm|]. split; [exact Hfind|].
  destruct (watch_reports_first_match sample_RegExp "connection established" true None 30
              _ pre [Timer] [Timer] _ Hm Hpre Hfind Hmid) as (H & _).
  unfold found_line. rewrite H. reflexivity.
Defined.

(** C5. The race in [watchForPattern]. If the timer fires while no stdout
    line has matched and nothing has resolved the call, the call is resolved
    as not found, with the text so far and the time-out note, the child is
    sent SIGTERM, and whatever follows (a matching line included) leaves
    that result in place. If a line has matched before the timer fires, the
    timer does nothing: the run is the run without it. *)
Theorem watch_race_first_wins :
  forall (RegExp_i : string -> regexp) (pattern : string) (useRegex : bool)
         (process : option string) (timeoutSeconds : Z) (matcher : string -> bool)
         (pre post : list event),
    matcher_of RegExp_i pattern useRegex = Some matcher ->
    Forall (fun e => is_data e = true) pre ->
    let c := watchForPattern RegExp_i pattern useRegex process timeoutSeconds in
    (find matcher (stdout_lines pre) = None ->
     w_settled (run c (pre ++ Timer :: post)) =
       Some (WatchResult false EmptyString (watch_text pre ++ timeout_note)) /\
     w_kills (run c (pre ++ [Timer])) = [SIGTERM]) /\
    (find matcher (stdout_lines pre) <> None ->
     run c (pre ++ Timer :: post) = run c (pre ++ post)).
Proof.
  intros RegExp_i pattern useRegex process timeoutSeconds matcher pre post Hm Hpre c.
  subst c. rewrite (watchForPattern_matcher _ _ _ _ _ _ Hm).
  set (c := Call _ _ _ _).
  assert (Hrun : run c pre = absorb (watch_text pre) (find matcher (stdout_lines pre)) w_fresh).
  { unfold run. subst c. cbn [listener init]. now apply watch_data. }
  split.
  - intros Hnone. rewrite Hnone in Hrun. cbn [absorb w_fresh] in Hrun.
    assert (Htimer : run c (pre ++ [Timer]) =
                     Watcher (watch_text pre) false EmptyString
                       (Some (WatchResult false EmptyString (watch_text pre ++ timeout_note)))
                       [SIGTERM]).
    { rewrite run_app, Hrun. reflexivity. }
    split.
    + change (pre ++ Timer :: post)%list with (pre ++ [Timer] ++ post)%list.
      rewrite app_assoc, run_app, Htimer. subst c. cbn [listener].
      now apply watch_settled_stable.
    + now rewrite Htimer.
  - intros Hsome.
    assert (Hnoop : listener c Timer (run c pre) = run c pre).
    { rewrite Hrun. subst c. cbn [listener].
      destruct (find matcher (stdout_lines pre)); [reflexivity | contradiction]. }
    rewrite !run_app. cbn [fold_left]. now rewrite Hnoop.
Qed.

Lemma watch_race_first_wins_witness :
  let late := [Stdout ("starting" ++ nl); Stderr "warn"] in
  let early := [Stdout ("starting" ++ nl ++ "error 42")] in
  matcher_of sample_RegExp "error" false = Some (plain_matcher "error") /\
  find (plain_matcher "error") (stdout_lines late) = None /\
  found_line (run (watchForPattern sample_RegExp "error" false None 2)
                  (late ++ Timer :: [Stdout "error 42"; Close])) =
    Some (false, EmptyString) /\
  find (plain_matcher "error") (stdout_lines early) <> None /\
  found_line (run (watchForPattern sample_RegExp "error" false None 2)
                  (early ++ Timer :: [Close])) = Some (true, "error 42").
Proof.
  intros late early.
  assert (Hm : matcher_of sample_RegExp "error" false = Some (plain_matcher "error"))
    by reflexivity.
  assert (Hlate : Forall (fun e => is_data e = true) late) by (repeat constructor).
  assert (Hearly : Forall (fun e => is_data e = true) early) by (repeat constructor).
  assert (Hnone : find (plain_matcher "error") (stdout_lines late) = None) by reflexivity.
  assert (Hsome : find (plain_matcher "error") (stdout_lines early) <> None)
    by (vm_compute; discriminate).
  split; [exact Hm|]. split; [exact Hnone|]. split; [|split; [exact Hsome|]].
  - destruct (watch_race_first_wins sample_RegExp "error" false None 2 _ late
                [Stdout "error 42"; Close] Hm Hlate) as (H & _).
    destruct (H Hnone) as (Hr & _). unfold found_line. rewrite Hr. reflexivity.
  - destruct (watch_race_first_wins sample_RegExp "error" false None 2 _ early
                [Close] Hm Hearly) as (_ & H).
    rewrite (H Hsome). reflexivity.
Defined.

(** ** Resolution of the calls *)

Lemma resolve_keeps v s r : settled s = Some r -> settled (resolve v s) = Some r.
Proof. intros H. unfold resolve. now rewrite H. Qed.

Lemma resolve_pending v s : settled s = None -> settled (resolve v s) = Some v.
Proof. intros H. unfold resolve. now rewrite H. Qed.

Lemma collect_lines_settled maxLines lines s :
  settled (fold_left (collect_line maxLines) lines s) = settled s.
Proof. now rewrite collect_lines. Qed.

Ltac keeps :=
  intros e s r H; destruct e; simpl;
  rewrite ?search_lines, ?device_lines; unfold getMacLogs_stdout;
  rewrite ?collect_lines_settled;
  try match goal with |- context [if ?b then _ else _] => destruct b end;
  simpl; auto using resolve_keeps.

Lemma getMacLogs_on_keeps maxLines : keeps_settled (getMacLogs_on maxLines).
Proof. keeps. Qed.

Lemma getLogsByLevel_on_keeps level maxLines :
  keeps_settled (getLogsByLevel_on level maxLines).
Proof. keeps. Qed.

Lemma getDeviceLogs_on_keeps udid maxLines :
  keeps_settled (getDeviceLogs_on udid maxLines).
Proof. keeps. Qed.

Lemma getSimulatorLogs_on_keeps simulator maxLines :
  keeps_settled (getSimulatorLogs_on simulator maxLines).
Proof. keeps. Qed.

Lemma stream_on_keeps empty_text : keeps_settled (stream_on empty_text).
Proof. keeps. Qed.

Lemma searchLogs_on_keeps query matcher maxLines :
  keeps_settled (searchLogs_on query matcher maxLines).
Proof. keeps. Qed.

Lemma deaf_keeps : keeps_settled deaf.
Proof. intros e s r H. exact H. Qed.

Lemma keeps_fold on evs s r :
  keeps_settled on -> settled s = Some r ->
  settled (fold_left (fun s e => on e s) evs s) = Some r.
Proof.
  intros Hon. revert s. induction evs as [|e evs IH]; intros s H; simpl; auto.
Qed.

Lemma keeps_fold_some on evs s :
  keeps_settled on -> settled s <> None ->
  settled (fold_left (fun s e => on e s) evs s) <> None.
Proof.
  intros Hon H. destruct (settled s) as [r|] eqn:E; [|contradiction].
  rewrite (keeps_fold on evs s r Hon E). discriminate.
Qed.

Lemma timely_settles (c : call collector) :
  timely c -> forall pre post, settled (run c (pre ++ Timer :: post)) <> None.
Proof.
  intros [Hk [Hi | Ht]] pre post.
  - unfold run. now apply keeps_fold_some.
  - rewrite run_app. cbn [fold_left]. apply keeps_fold_some; [exact Hk | apply Ht].
Qed.


Ltac timely_listener :=
  unfold timely, getMacLogs, getLogsByLevel, streamDeviceLogs; cbn [listener init];
  split; [auto using getMacLogs_on_keeps, getLogsByLevel_on_keeps,
            getDeviceLogs_on_keeps, getSimulatorLogs_on_keeps, stream_on_keeps,
            searchLogs_on_keeps, deaf_keeps
         | first [ left; apply resolve_settled
                 | right; intros s; simpl; apply resolve_settled ] ].

Lemma getMacLogs_timely subsystem process lastMinutes maxLines :
  timely (getMacLogs subsystem process lastMinutes maxLines).
Proof. timely_listener. Qed.

Lemma getLogsByLevel_timely level process lastMinutes maxLines :
  timely (getLogsByLevel level process lastMinutes maxLines).
Proof. timely_listener. Qed.

Lemma getDeviceLogs_timely has udid process lastMinutes maxLines :
  timely (getDeviceLogs has udid process lastMinutes maxLines).
Proof. unfold getDeviceLogs. destruct has; timely_listener. Qed.

Lemma getSimulatorLogs_timely simulators id process lastMinutes maxLines :
  timely (getSimulatorLogs simulators id process lastMinutes maxLines).
Proof.
  unfold getSimulatorLogs. destruct (findSimulator simulators id) as [sim|];
    [destruct (negb (String.eqb (state sim) "Booted"))|]; timely_listener.
Qed.

Lemma streamSimulatorLogs_timely simulators id process durationSeconds :
  timely (streamSimulatorLogs simulators id process durationSeconds).
Proof.
  unfold streamSimulatorLogs. destruct (findSimulator simulators id) as [sim|];
    [destruct (negb (String.eqb (state sim) "Booted"))|]; timely_listener.
Qed.

Lemma streamDeviceLogs_timely has udid process durationSeconds :
  timely (streamDeviceLogs has udid process durationSeconds).
Proof. timely_listener. Qed.

Lemma searchLogs_timely RegExp_i query lastMinutes maxLines useRegex :
  timely (searchLogs RegExp_i query lastMinutes maxLines useRegex).
Proof.
  unfold searchLogs. destruct useRegex; [destruct (RegExp_i query)|]; timely_listener.
Qed.

(** ** The timed stream *)

Lemma stream_quiet (empty_text : string) (pre : list event) (s : collector) :
  Forall (fun e => is_quiet e = true) pre ->
  fold_left (fun s e => stream_on empty_text e s) pre s =
  Collector (output s ++ stream_text pre) (lineCount s) (settled s) (kills s).
Proof.
  intros H. revert s. induction H as [|e pre He _ IH]; intros s.
  - destruct s. simpl. now rewrite append_nil_r.
  - destruct e; try discriminate; cbn [fold_left stream_on stream_text];
      rewrite IH; simpl; rewrite ?append_assoc; reflexivity.
Qed.

(** C9, as the claim states it, fails: a stream during which nothing was
    collected does not return the empty collected text but a fixed notice. *)
Lemma stream_logs_nothing_collected :
  awaited (stream_logs false None None) = Some (streamDeviceLogs false EmptyString None 10) /\
  output (run (streamDeviceLogs false EmptyString None 10) [Timer]) = EmptyString /\
  answer (stream_logs false None None) [Timer] = Some "No logs captured during stream" /\
  answer (stream_logs false None None) [Timer] <>
    Some (output (run (streamDeviceLogs false EmptyString None 10) [Timer])).
Proof.
  split; [reflexivity|]. split; [reflexivity|]. split; [reflexivity|].
  vm_compute. discriminate.
Qed.

(** C9, amended. [stream_logs] clamps the requested duration to at most 30
    seconds (10 when none is given) and arms the timer with it; until the
    timer fires the call is pending; when it fires the child is sent SIGTERM
    and the call is answered, as a plain text and not as an error, with
    whatever the two streams delivered, or, when that is empty, with the
    notice that no logs were captured during the stream. *)
Theorem stream_logs_returns_collected :
  forall (has : bool) (process : option string) (durationSeconds : option Z)
         (pre post : list event),
    Forall (fun e => is_quiet e = true) pre ->
    let duration := Z.min (number_or durationSeconds 10) 30 in
    let h := stream_logs has process durationSeconds in
    let c := streamDeviceLogs has EmptyString process duration in
    awaited h = Some c /\
    armed h = Some (duration * 1000) /\
    duration <= 30 /\
    answer h pre = None /\
    kills (run c (pre ++ [Timer])) = [SIGTERM] /\
    answer h (pre ++ Timer :: post) =
      Some (or_else (stream_text pre) "No logs captured during stream") /\
    (stream_text pre <> EmptyString ->
     answer h (pre ++ Timer :: post) = Some (stream_text pre)) /\
    (stream_text pre = EmptyString ->
     answer h (pre ++ Timer :: post) = Some "No logs captured during stream").
Proof.
  intros has process durationSeconds pre post Hpre duration h c.
  assert (Hrun : run c pre = Collector (stream_text pre) 0 None []).
  { unfold run. subst c. cbn [listener init streamDeviceLogs].
    now rewrite (stream_quiet _ pre fresh Hpre). }
  assert (Htimer : run c (pre ++ [Timer]) =
                   Collector (stream_text pre) 0
                     (Some (or_else (stream_text pre) "No logs captured during stream"))
                     [SIGTERM]).
  { rewrite run_app, Hrun. reflexivity. }
  assert (Hans : answer h (pre ++ Timer :: post) =
                 Some (or_else (stream_text pre) "No logs captured during stream")).
  { subst h. unfold stream_logs, answer. fold duration. fold c.
    change (pre ++ Timer :: post)%list with (pre ++ [Timer] ++ post)%list.
    rewrite app_assoc, run_app.
    rewrite (keeps_fold (listener c) post _
               (or_else (stream_text pre) "No logs captured during stream"));
      [reflexivity | apply stream_on_keeps | now rewrite Htimer]. }
  split; [reflexivity|]. split; [reflexivity|]. split; [subst duration; lia|].
  split; [subst h; unfold stream_logs, answer; fold duration; fold c; now rewrite Hrun|].
  split; [now rewrite Htimer|]. split; [exact Hans|]. split.
  - intros Hne. rewrite Hans. unfold or_else.
    destruct (String.eqb_spec (stream_text pre) EmptyString); [contradiction | reflexivity].
  - intros He. rewrite Hans, He. reflexivity.
Qed.

Lemma stream_logs_returns_collected_witness :
  let pre := [Stdout ("one" ++ nl); Stderr "two"; Close] in
  Forall (fun e => is_quiet e = true) pre /\
  stream_text pre <> EmptyString /\
  answer (stream_logs true (Some "Safari") (Some 45)) (pre ++ Timer :: [Stdout "late"]) =
    Some ("one" ++ nl ++ "two") /\
  armed (stream_logs true (Some "Safari") (Some 45)) = Some 30000.
Proof.
  intros pre.
  assert (Hpre : Forall (fun e => is_quiet e = true) pre) by (repeat constructor).
  assert (Hne : stream_text pre <> EmptyString) by (vm_compute; discriminate).
  destruct (stream_logs_returns_collected true (Some "Safari") (Some 45) pre
              [Stdout "late"] Hpre) as (_ & Harm & _ & _ & _ & _ & Hsome & _).
  split; [exact Hpre|]. split; [exact Hne|]. split; [exact (Hsome Hne) | exact Harm].
Defined.

(** ** The device window *)

(** C10. [get_device_logs] clamps [lastMinutes] to at most 10 (5 when none
    is given) and [getDeviceLogs], reading idevicesyslog, arms its timer
    with min(lastMinutes * 1000, 10000) milliseconds: the minutes asked for
    are taken as seconds. A request for m > 0 minutes is collected for
    min(m, 10) seconds; when the timer fires the child is sent SIGTERM and
    the call is resolved. *)
Theorem device_window_is_seconds :
  forall (devices : list Device.t) (device : string) (d : Device.t)
         (process : option string) (lastMinutes maxLines : option Z)
         (pre post : list event),
    given (Some device) = Some device ->
    findDevice devices device = Some d ->
    let clamped := Z.min (number_or lastMinutes 5) 10 in
    let h := get_device_logs devices true (Some device) process lastMinutes maxLines in
    let c := getDeviceLogs true (Device.udid d) process clamped (number_or maxLines 200) in
    awaited h = Some c /\
    armed h = Some (collectDuration clamped) /\
    collectDuration clamped = Z.min (clamped * 1000) 10000 /\
    collectDuration clamped = clamped * 1000 /\
    collectDuration clamped <= 10000 /\
    (forall m, lastMinutes = Some m -> 0 < m ->
               armed h = Some (Z.min m 10 * 1000)) /\
    (lastMinutes = None -> armed h = Some 5000) /\
    (kills (run c pre) = [] -> kills (run c (pre ++ [Timer])) = [SIGTERM]) /\
    answered h (pre ++ Timer :: post) = true.
Proof.
  intros devices device d process lastMinutes maxLines pre post Hgiven Hfind clamped h c.
  assert (Hh : h = Await c (fun logs => "📱 Logs from " ++ Device.name d ++ ":" ++
                                         nl ++ nl ++ logs)).
  { subst h. unfold get_device_logs. rewrite Hgiven, Hfind. reflexivity. }
  assert (Hd : collectDuration clamped = clamped * 1000).
  { unfold collectDuration. subst clamped. lia. }
  rewrite Hh. cbn [awaited armed]. subst c. cbn [getDeviceLogs timer].
  split; [reflexivity|]. split; [reflexivity|]. split; [reflexivity|].
  split; [exact Hd|]. split; [subst clamped; unfold collectDuration; lia|].
  split; [|split; [|split]].
  - intros m -> Hm. rewrite Hd. subst clamped. unfold number_or.
    destruct (Z.eqb_spec m 0); [lia | reflexivity].
  - intros ->. reflexivity.
  - intros Hk. rewrite run_app. cbn [fold_left listener getDeviceLogs_on].
    rewrite resolve_kills. simpl. now rewrite Hk.
  - unfold answered, answer.
    pose proof (timely_settles _ (getDeviceLogs_timely true (Device.udid d) process clamped
                                    (number_or maxLines 200)) pre post) as Ht.
    cbn [getDeviceLogs] in Ht.
    destruct (settled _); [reflexivity | contradiction].
Qed.

Lemma device_window_is_seconds_witness :
  let phone := {| Device.udid := "00008030"; Device.name := "iPhone";
                  Device.model := "iPhone15"; Device.connectionType := "USB" |} in
  findDevice [phone] "iphone" = Some phone /\
  armed (get_device_logs [phone] true (Some "iphone") None (Some 3) None) = Some 3000 /\
  armed (get_device_logs [phone] true (Some "iphone") None (Some 60) None) = Some 10000.
Proof.
  intros phone.
  assert (Hg : given (Some "iphone") = Some "iphone") by reflexivity.
  assert (Hf : findDevice [phone] "iphone" = Some phone) by reflexivity.
  split; [exact Hf|]. split.
  - destruct (device_window_is_seconds [phone] "iphone" phone None (Some 3) None [] []
                Hg Hf) as (_ & _ & _ & _ & _ & H & _).
    apply (H 3); [reflexivity | lia].
  - destruct (device_window_is_seconds [phone] "iphone" phone None (Some 60) None [] []
                Hg Hf) as (_ & _ & _ & _ & _ & H & _).
    apply (H 60); [reflexivity | lia].
Defined.

(** ** A child that cannot be spawned *)

Lemma prefix_append (a b : string) : prefix a (a ++ b) = true.
Proof.
  induction a as [|c a IH]; simpl; [now destruct b|].
  destruct (ascii_dec c c); [exact IH | contradiction].
Qed.

Lemma prefix_refl (a : string) : prefix a a = true.
Proof. rewrite <- (append_nil_r a) at 2. apply prefix_append. Qed.






(** ** Every call comes to an end *)






Lemma w_resolve_some v s : w_settled (w_resolve v s) <> None.
Proof. unfold w_resolve. destruct (w_settled s) eqn:E; simpl; congruence. Qed.

(** The listeners of a watch: those of [watchForPattern_on], or none. *)
Lemma watchForPattern_listener RegExp_i pattern useRegex process timeoutSeconds :
  let c := watchForPattern RegExp_i pattern useRegex process timeoutSeconds in
  (exists matcher, listener c = watchForPattern_on matcher /\ init c = w_fresh /\
                   timer c = Some (timeoutSeconds * 1000)) \/
  (listener c = deaf /\ w_settled (init c) <> None /\ w_found (init c) = false /\
   timer c = None).
Proof.
  unfold watchForPattern. destruct useRegex; [destruct (RegExp_i pattern)|].
  - left. eexists. repeat split.
  - right. repeat split. apply w_resolve_some.
  - left. eexists. repeat split.
Qed.

Lemma deaf_run {S} (c : call S) evs : listener c = deaf -> run c evs = init c.
Proof.
  intros E. unfold run. rewrite E.
  induction evs as [|e evs IH]; simpl; [reflexivity | exact IH].
Qed.

(** A watch that has found its line stays pending until [close] or [error]:
    neither output nor the timer resolves it. *)
Lemma watch_pending_after_match matcher spawn delay pre mid line :
  Forall (fun e => is_data e = true) pre ->
  find matcher (stdout_lines pre) = Some line ->
  Forall (fun e => is_end e = false) mid ->
  w_settled (run (Call spawn delay (watchForPattern_on matcher) w_fresh) (pre ++ mid)) = None.
Proof.
  intros Hpre Hfind Hmid. rewrite run_app. unfold run. cbn [listener init].
  rewrite (watch_data matcher pre w_fresh Hpre), Hfind. cbn [absorb w_fresh w_found].
  rewrite watch_after_found; [reflexivity | reflexivity | exact Hmid].
Qed.


(** What a tool other than the watch comes to: an answer at once, or a call
    whose timer resolves it and is no longer than a minute. *)
Lemma dispatch_collector (h : host) (r : request) :
  is_watch r = false ->
  (exists text, dispatch h r = Reply text) \/
  (exists c format, dispatch h r = Await c format /\ timely c /\
     match timer c with
     | Some delay => delay <= 60000
     | None => settled (init c) <> None
     end).
Proof.
  intros Hr. destruct r; try discriminate; cbn [dispatch].
  - right. do 2 eexists. split; [reflexivity|].
    split; [apply getMacLogs_timely | simpl; lia].
  - unfold get_device_logs. destruct (given device) as [deviceId|]; [|left; eauto].
    destruct (findDevice (devices h) deviceId) as [d|];
      [|destruct (devices h); left; eauto].
    right. do 2 eexists. split; [reflexivity|]. split; [apply getDeviceLogs_timely|].
    unfold getDeviceLogs. destruct (hasIdevicesyslog h); simpl.
    + unfold collectDuration. lia.
    + discriminate.
  - unfold get_simulator_logs. destruct (given simulator) as [simulatorId|]; [|left; eauto].
    destruct (findSimulator (simulators h) simulatorId) as [sim|];
      [|destruct (filter _ (simulators h)); left; eauto].
    right. do 2 eexists. split; [reflexivity|]. split; [apply getSimulatorLogs_timely|].
    unfold getSimulatorLogs. destruct (findSimulator (simulators h) (udid sim)) as [sim'|];
      [destruct (negb (String.eqb (state sim') "Booted"))|]; cbn [timer init];
      first [lia | apply resolve_settled].
  - right. do 2 eexists. split; [reflexivity|].
    split; [apply streamDeviceLogs_timely | simpl; lia].
  - unfold stream_simulator_logs. destruct (given simulator) as [simulatorId|]; [|left; eauto].
    right. do 2 eexists. split; [reflexivity|]. split; [apply streamSimulatorLogs_timely|].
    unfold streamSimulatorLogs.
    destruct (findSimulator (simulators h) simulatorId) as [sim|];
      [destruct (negb (String.eqb (state sim) "Booted"))|]; cbn [timer init];
      first [lia | apply resolve_settled].
  - unfold search_logs. destruct (given query) as [q|]; [|left; eauto].
    right. do 2 eexists. split; [reflexivity|]. split; [apply searchLogs_timely|].
    unfold searchLogs. destruct (flag useRegex); [destruct (RegExp_i h q)|]; cbn [timer init];
      first [lia | apply resolve_settled].
  - unfold get_logs_by_level. destruct (given level) as [l|]; [|left; eauto].
    right. do 2 eexists. split; [reflexivity|].
    split; [apply getLogsByLevel_timely | simpl; lia].
  - right. do 2 eexists. split; [reflexivity|].
    split; [apply getMacLogs_timely | simpl; lia].
Qed.




(** ** Invalid patterns *)

(** C2. What [searchLogs] and [watchForPattern] do with a pattern the
    regular-expression constructor rejects: the call is resolved with the
    invalid-pattern text, as the claim says; but the child has been spawned
    by then, the call returns without sending it a signal and without
    arming the timer, and no event is listened to, so the child is never
    signalled: the process the claim rules out has been started and is left
    running. *)
Theorem invalid_regex_after_spawn :
  forall (RegExp_i : string -> regexp) (pattern e : string) (lastMinutes maxLines : Z)
         (process : option string) (timeoutSeconds : Z) (evs : list event),
    RegExp_i pattern = SyntaxError e ->
    let s := searchLogs RegExp_i pattern lastMinutes maxLines true in
    let w := watchForPattern RegExp_i pattern true process timeoutSeconds in
    (settled (run s evs) =
       Some ("Invalid regex pattern: " ++ pattern ++ nl ++ "Error: " ++ e) /\
     spawned s = [("log", ["show"; "--last"; show lastMinutes ++ "m"; "--style"; "compact"])] /\
     kills (run s evs) = [] /\
     timer s = None) /\
    (w_settled (run w evs) = Some (WatchResult false EmptyString ("Invalid regex: " ++ e)) /\
     (exists args, spawned w = [("log", args)]) /\
     w_kills (run w evs) = [] /\
     timer w = None).
Proof.
  intros RegExp_i pattern e lastMinutes maxLines process timeoutSeconds evs He s w.
  assert (Hs : s = Call [("log", ["show"; "--last"; show lastMinutes ++ "m";
                                  "--style"; "compact"])] None deaf
                        (resolve ("Invalid regex pattern: " ++ pattern ++ nl ++
                                  "Error: " ++ e) fresh)).
  { subst s. unfold searchLogs. now rewrite He. }
  assert (Hw : exists args,
             w = Call [("log", args)] None deaf
                      (w_resolve (WatchResult false EmptyString ("Invalid regex: " ++ e))
                                 w_fresh)).
  { subst w. unfold watchForPattern. rewrite He. eexists. reflexivity. }
  destruct Hw as (args & Hw). split.
  - rewrite Hs, deaf_run by reflexivity. repeat split.
  - rewrite Hw, deaf_run by reflexivity. repeat split. now exists args.
Qed.

Lemma invalid_regex_after_spawn_witness :
  sample_RegExp "[" =
    SyntaxError "SyntaxError: Invalid regular expression: /[/i: Unterminated character class" /\
  spawned (searchLogs sample_RegExp "[" 30 100 true) =
    [("log", ["show"; "--last"; "30m"; "--style"; "compact"])] /\
  kills (run (searchLogs sample_RegExp "[" 30 100 true) [Stdout "x"; Close; Timer]) = [] /\
  timer (watchForPattern sample_RegExp "[" true None 30) = None.
Proof.
  assert (He : sample_RegExp "[" =
               SyntaxError "SyntaxError: Invalid regular expression: /[/i: Unterminated character class")
    by reflexivity.
  destruct (invalid_regex_after_spawn sample_RegExp "[" _ 30 100 None 30
              [Stdout "x"; Close; Timer] He) as ((_ & Hsp & Hk & _) & (_ & _ & _ & Ht)).
  split; [exact He|]. split; [exact Hsp|]. split; [exact Hk | exact Ht].
Defined.

(* ------------------------------------------------------------------ *)
(** * Further properties of the engine and the dispatcher *)

(** ** Answers *)

Lemma dispatch_watch (h : host) (r : request) :
  is_watch r = true ->
  (exists text, dispatch h r = Reply text) \/
  (exists c format, dispatch h r = AwaitWatch c format /\
     ((exists matcher, listener c = watchForPattern_on matcher) \/ listener c = deaf)).
Proof.
  intros Hr. destruct r; try discriminate. cbn [dispatch]. unfold watch_for_pattern.
  destruct (given pattern) as [p|]; [|left; eauto].
  right. do 2 eexists. split; [reflexivity|].
  destruct (watchForPattern_listener (RegExp_i h) p (flag useRegex) process
              (Z.min (number_or timeoutSeconds 30) 60))
    as [(m & Hl & _) | (Hl & _)]; [left; now exists m | now right].
Qed.

(** X1. A tool call that has been answered keeps its answer: whatever
    events follow (more output, the close of the child, an error, the timer),
    the promise resolved first decides the text returned. *)
Theorem answer_is_final :
  forall (h : host) (r : request) (pre post : list event) (text : string),
    answer (dispatch h r) pre = Some text ->
    answer (dispatch h r) (pre ++ post) = Some text.
Proof.
  intros h r pre post text. destruct (is_watch r) eqn:Hr.
  - destruct (dispatch_watch h r Hr) as [(t & ->) | (c & format & -> & Hl)].
    + intros H. exact H.
    + unfold answer. destruct (w_settled (run c pre)) as [res|] eqn:E; [|discriminate].
      intros H. rewrite run_app.
      destruct Hl as [(m & Hl) | Hl]; rewrite Hl.
      * now rewrite (watch_settled_stable m res post _ E).
      * assert (Hd : forall evs (s : watcher), fold_left (fun s e => deaf e s) evs s = s).
        { intros evs. induction evs as [|e evs IH]; intros s; simpl; auto. }
        now rewrite Hd, E.
  - destruct (dispatch_collector h r Hr) as [(t & ->) | (c & format & -> & (Hk & _) & _)].
    + intros H. exact H.
    + unfold answer. destruct (settled (run c pre)) as [res|] eqn:E; [|discriminate].
      intros H. rewrite run_app. now rewrite (keeps_fold _ post _ res Hk E).
Qed.

Lemma answer_is_final_witness :
  let h := Host sample_RegExp [] [] false in
  let r := GetLogs None None None (Some 2) in
  answer (dispatch h r) [Stdout ("a" ++ nl ++ "b"); Close] = Some ("a" ++ nl ++ "b" ++ nl) /\
  answer (dispatch h r) ([Stdout ("a" ++ nl ++ "b"); Close] ++ [Stdout "c"; Timer]) =
    Some ("a" ++ nl ++ "b" ++ nl).
Proof.
  intros h r.
  assert (H : answer (dispatch h r) [Stdout ("a" ++ nl ++ "b"); Close] =
              Some ("a" ++ nl ++ "b" ++ nl)) by reflexivity.
  split; [exact H|].
  exact (answer_is_final h r _ [Stdout "c"; Timer] _ H).
Defined.

(** X2. A tool call answers with an [Error: ...] text, at once and without
    spawning a child, exactly when the parameter it requires (device,
    simulator, query, level, pattern) is absent or the empty string. *)
Theorem missing_parameter_is_refused :
  forall (h : host) (r : request),
    missing_required r = true <->
    exists text, dispatch h r = Reply text /\ prefix "Error: " text = true /\
                 spawned_by (dispatch h r) = [].
Proof.
  intros h r. split.
  - intros H. destruct r; try discriminate; cbn [missing_required] in H;
      unfold absent in H; cbn [dispatch];
      unfold get_device_logs, get_simulator_logs, stream_simulator_logs, search_logs,
        get_logs_by_level, watch_for_pattern;
      match goal with
      | H : match given ?x with _ => _ end = true |- _ =>
          destruct (given x); [discriminate|]
      end; eexists; repeat split.
  - intros (text & H & Hp & _).
    destruct r; cbn [dispatch missing_required] in *; unfold absent;
      unfold get_logs, get_device_logs, get_simulator_logs, stream_logs,
        stream_simulator_logs, search_logs, get_logs_by_level, watch_for_pattern,
        get_vpn_logs in H;
      try discriminate;
      match goal with
      | |- match given ?x with _ => _ end = true =>
          destruct (given x); [|reflexivity]
      end; try discriminate.
    + destruct (findDevice (devices h) s); [discriminate|].
      destruct (devices h); injection H as <-; discriminate.
    + destruct (findSimulator (simulators h) s); [discriminate|].
      destruct (filter _ (simulators h)); injection H as <-; discriminate.
Qed.

(** X3. A numeric argument given as 0 is read as if it had not been given:
    the tool call is the same call, with the default in its place. *)
Theorem zero_is_the_default :
  forall (h : host) (r : request), dispatch h (zeros_absent r) = dispatch h r.
Proof.
  assert (Hn : forall x d, number_or (zero_absent x) d = number_or x d).
  { intros [v|] d; simpl; [|reflexivity]. destruct (Z.eqb_spec v 0); simpl;
      [reflexivity|]. destruct (Z.eqb_spec v 0); [contradiction | reflexivity]. }
  intros h r. destruct r; cbn [dispatch zeros_absent];
    unfold get_logs, get_device_logs, get_simulator_logs, stream_logs,
      stream_simulator_logs, search_logs, get_logs_by_level, watch_for_pattern,
      get_vpn_logs;
    rewrite ?Hn; reflexivity.
Qed.

Lemma missing_parameter_is_refused_witness :
  let h := Host sample_RegExp [] [] false in
  missing_required (SearchLogs (Some EmptyString) None None None) = true /\
  exists text, dispatch h (SearchLogs (Some EmptyString) None None None) = Reply text /\
               prefix "Error: " text = true /\
               spawned_by (dispatch h (SearchLogs (Some EmptyString) None None None)) = [].
Proof.
  intros h.
  assert (H : missing_required (SearchLogs (Some EmptyString) None None None) = true)
    by reflexivity.
  split; [exact H|].
  exact (proj1 (missing_parameter_is_refused h _) H).
Defined.

(** ** Streams and chunks *)





(** Splitting a text at its line feeds and writing every line back with a
    line feed gives the text with one line feed more. *)
Lemma with_LF_split (s : string) : with_LF (split LF s) = s ++ nl.
Proof.
  induction s as [|c s IH]; [reflexivity|].
  cbn [split]. destruct (Ascii.eqb_spec c LF) as [->|Hc].
  - cbn [with_LF]. rewrite IH. reflexivity.
  - destruct (split LF s) as [|l ls] eqn:Hs; [now apply split_not_nil in Hs|].
    cbn [with_LF append] in *. now rewrite IH.
Qed.

Lemma with_LF_lines_of (chunks : list string) :
  with_LF (lines_of chunks) = whole (each_with_LF chunks).
Proof.
  induction chunks as [|c cs IH]; [reflexivity|].
  change (lines_of (c :: cs)) with (split LF c ++ lines_of cs)%list.
  rewrite with_LF_app, with_LF_split, IH. reflexivity.
Qed.

(** X5. What [watchForPattern] hands back as [allOutput] when the child
    closes, after stdout chunks only, is their text with one line feed
    added at the end of every chunk, the lines after the match included;
    it has as many line feeds as the text plus one per chunk. *)
Theorem watch_output_adds_a_line_feed_per_chunk :
  forall (RegExp_i : string -> regexp) (pattern : string) (useRegex : bool)
         (process : option string) (timeoutSeconds : Z) (matcher : string -> bool)
         (chunks : list string) (post : list event),
    matcher_of RegExp_i pattern useRegex = Some matcher ->
    let c := watchForPattern RegExp_i pattern useRegex process timeoutSeconds in
    exists res,
      w_settled (run c (map Stdout chunks ++ Close :: post)) = Some res /\
      allOutput res = whole (each_with_LF chunks) /\
      count_LF (allOutput res) = (count_LF (whole chunks) + List.length chunks)%nat.
Proof.
  intros RegExp_i pattern useRegex process timeoutSeconds matcher chunks post Hm c.
  subst c. rewrite (watchForPattern_matcher _ _ _ _ _ _ Hm).
  set (c := Call _ _ _ _).
  assert (Hrun : w_output (run c (map Stdout chunks)) = whole (each_with_LF chunks) /\
                 w_settled (run c (map Stdout chunks)) = None).
  { unfold run. subst c. cbn [listener init].
    rewrite fold_left_map_event. cbn [watchForPattern_on]. rewrite fold_chunks.
    fold (lines_of chunks). rewrite watch_lines. unfold absorb.
    destruct (find matcher (lines_of chunks)); cbn [w_fresh w_found w_output w_settled];
      rewrite with_LF_lines_of; auto. }
  destruct Hrun as (Ho & Hs).
  exists (WatchResult (w_found (run c (map Stdout chunks)))
                      (w_matchedLine (run c (map Stdout chunks)))
                      (whole (each_with_LF chunks))).
  split; [|split; [reflexivity|]].
  - change (map Stdout chunks ++ Close :: post)%list
      with (map Stdout chunks ++ [Close] ++ post)%list.
    rewrite app_assoc, run_app. subst c. cbn [listener].
    apply watch_settled_stable. rewrite run_app. cbn [fold_left listener watchForPattern_on].
    unfold w_resolve. rewrite Hs. cbn [w_settled]. now rewrite Ho.
  - cbn [allOutput]. rewrite <- with_LF_lines_of.
    rewrite count_LF_with_LF by apply chunk_lines_clean. apply whole_count.
Qed.

Lemma watch_output_adds_a_line_feed_per_chunk_witness :
  matcher_of sample_RegExp "b" false = Some (plain_matcher "b") /\
  exists res,
    w_settled (run (watchForPattern sample_RegExp "b" false None 30)
                   (map Stdout ["a" ++ nl; "b" ++ nl] ++ Close :: [])) = Some res /\
    allOutput res = whole (each_with_LF ["a" ++ nl; "b" ++ nl]) /\
    count_LF (allOutput res) =
      (count_LF (whole ["a" ++ nl; "b" ++ nl]) + List.length ["a" ++ nl; "b" ++ nl])%nat.
Proof.
  assert (Hm : matcher_of sample_RegExp "b" false = Some (plain_matcher "b")) by reflexivity.
  split; [exact Hm|].
  exact (watch_output_adds_a_line_feed_per_chunk sample_RegExp "b" false None 30 _
           ["a" ++ nl; "b" ++ nl] [] Hm).
Defined.

(** ** The bounded fetch *)

Lemma with_LF_not_empty (l : string) (ls : list string) :
  with_LF (l :: ls) <> EmptyString.
Proof.
  cbn [with_LF]. destruct l; simpl; discriminate.
Qed.

Lemma or_else_kept (text notice : string) :
  text <> EmptyString -> or_else text notice = text.
Proof.
  intros H. unfold or_else.
  destruct (String.eqb_spec text EmptyString); [contradiction | reflexivity].
Qed.

Lemma lines_of_not_nil (chunks : list string) : chunks <> [] -> lines_of chunks <> [].
Proof.
  destruct chunks as [|c cs]; [contradiction|]. intros _ H.
  change (lines_of (c :: cs)) with (split LF c ++ lines_of cs)%list in H.
  apply app_eq_nil in H. destruct H as [H _]. now apply split_not_nil in H.
Qed.

(** X6. [getMacLogs] resolves at the close of the child or at its timer,
    whichever comes first, with the lines kept so far; the timer also sends
    SIGTERM. The notices [No logs found] and [Timeout] are returned only
    when no stdout chunk came at all: with a cap of at least one line, as
    soon as one chunk has come, even an empty one, the text returned is the
    kept lines. *)
Theorem getMacLogs_returns_kept_lines :
  forall (subsystem process : option string) (lastMinutes maxLines : Z)
         (chunks : list string) (post : list event),
    let c := getMacLogs subsystem process lastMinutes maxLines in
    let kept := with_LF (firstn (Z.to_nat maxLines) (lines_of chunks)) in
    settled (run c (map Stdout chunks ++ Close :: post)) =
      Some (or_else kept "No logs found") /\
    settled (run c (map Stdout chunks ++ Timer :: post)) = Some (or_else kept "Timeout") /\
    kills (run c (map Stdout chunks ++ [Close])) = [] /\
    kills (run c (map Stdout chunks ++ [Timer])) = [SIGTERM] /\
    (chunks = [] -> or_else kept "No logs found" = "No logs found" /\
                    or_else kept "Timeout" = "Timeout") /\
    (chunks <> [] -> 1 <= maxLines ->
     or_else kept "No logs found" = kept /\ or_else kept "Timeout" = kept).
Proof.
  intros subsystem process lastMinutes maxLines chunks post c kept.
  assert (Hrun : run c (map Stdout chunks) =
                 Collector kept (Z.of_nat (List.length
                   (firstn (Z.to_nat maxLines) (lines_of chunks)))) None []).
  { subst c. now rewrite getMacLogs_stdout_run. }
  assert (Hpost : forall e v,
             settled (listener c e (run c (map Stdout chunks))) = Some v ->
             settled (run c (map Stdout chunks ++ e :: post)) = Some v).
  { intros e v H. change (map Stdout chunks ++ e :: post)%list
      with (map Stdout chunks ++ [e] ++ post)%list.
    rewrite app_assoc, run_app. apply keeps_fold; [apply getMacLogs_on_keeps|].
    now rewrite run_app. }
  split; [apply Hpost; now rewrite Hrun|].
  split; [apply Hpost; now rewrite Hrun|].
  split; [rewrite run_app, Hrun; reflexivity|].
  split; [rewrite run_app, Hrun; reflexivity|].
  split.
  - intros ->. subst kept. unfold lines_of. cbn [flat_map]. rewrite firstn_nil.
    split; reflexivity.
  - intros Hne Hcap. subst kept.
    destruct (lines_of chunks) as [|l ls] eqn:Hl; [now apply lines_of_not_nil in Hl|].
    replace (Z.to_nat maxLines) with (Datatypes.S (Z.to_nat (maxLines - 1))) by lia.
    cbn [firstn]. split; apply or_else_kept, with_LF_not_empty.
Qed.

Lemma getMacLogs_returns_kept_lines_witness :
  [EmptyString] <> @nil string /\ 1 <= 200 /\
  settled (run (getMacLogs None None 5 200) (map Stdout [EmptyString] ++ Close :: [])) =
    Some nl.
Proof.
  assert (H1 : [EmptyString] <> @nil string) by discriminate.
  assert (H2 : 1 <= 200) by lia.
  destruct (getMacLogs_returns_kept_lines None None 5 200 [EmptyString] [])
    as (Hc & _ & _ & _ & _ & Hk).
  split; [exact H1|]. split; [exact H2|].
  rewrite Hc. now rewrite (proj1 (Hk H1 H2)).
Defined.

(** The stdout lines that count: what the cap of [getMacLogs] bounds. *)
Lemma getMacLogs_LF_step (maxLines : Z) (e : event) (s : collector) :
  is_data e = true ->
  0 <= lineCount s ->
  let s' := getMacLogs_on maxLines e s in
  0 <= lineCount s' /\
  (count_LF (output s') + Z.to_nat (lineCount s) =
   count_LF (output s) + Z.to_nat (lineCount s') +
   match e with Stderr data => count_LF data | _ => O end)%nat.
Proof.
  intros He Hs. destruct e; try discriminate; cbn [getMacLogs_on]; cbv zeta.
  - unfold getMacLogs_stdout. rewrite collect_lines. cbn [output lineCount].
    rewrite count_LF_append.
    destruct (kept_count (room maxLines (lineCount s)) _ (split_lines_clean data))
      as [-> _]. split; lia.
  - unfold emit. cbn [output lineCount]. rewrite !count_LF_append.
    change (count_LF "[stderr] ") with O. split; lia.
Qed.

(** X7. In [getMacLogs] the cap bounds the stdout lines only: after any
    output, the text collected has as many line feeds as stdout lines were
    kept ([lineCount], at most the cap) plus all the line feeds of the
    stderr chunks, which are appended whole whether the cap is reached or
    not. *)
Theorem getMacLogs_cap_spares_stderr :
  forall (subsystem process : option string) (lastMinutes maxLines : Z)
         (evs : list event),
    Forall (fun e => is_data e = true) evs ->
    let s := run (getMacLogs subsystem process lastMinutes maxLines) evs in
    count_LF (output s) = (Z.to_nat (lineCount s) + stderr_LF evs)%nat /\
    0 <= lineCount s <= Z.max 0 maxLines.
Proof.
  intros subsystem process lastMinutes maxLines evs Hevs s. split.
  - subst s. unfold run. cbn [listener init getMacLogs].
    assert (G : forall s0, 0 <= lineCount s0 ->
              (count_LF (output (fold_left (fun s e => getMacLogs_on maxLines e s) evs s0)) +
               Z.to_nat (lineCount s0) =
               count_LF (output s0) +
               Z.to_nat (lineCount (fold_left (fun s e => getMacLogs_on maxLines e s) evs s0)) +
               stderr_LF evs)%nat).
    { induction Hevs as [|e evs He _ IH]; intros s0 H0; [simpl; lia|].
      cbn [fold_left].
      destruct (getMacLogs_LF_step maxLines e s0 He H0) as (H1 & H2).
      specialize (IH _ H1).
      assert (Hst : stderr_LF (e :: evs) =
                    (match e with Stderr data => count_LF data | _ => O end +
                     stderr_LF evs)%nat) by (destruct e; reflexivity).
      rewrite Hst. cbv zeta in H2. lia. }
    specialize (G fresh). cbn [fresh lineCount output count_LF] in G.
    assert (0 <= 0) by lia. specialize (G H). simpl in G. lia.
  - subst s. unfold run. cbn [listener init getMacLogs].
    apply (fold_invariant (fun s => 0 <= lineCount s <= Z.max 0 maxLines)
             (getMacLogs_on maxLines) (getMacLogs_on_count maxLines)). simpl. lia.
Qed.

Lemma getMacLogs_cap_spares_stderr_witness :
  let evs := [Stdout ("a" ++ nl ++ "b" ++ nl ++ "c"); Stderr ("x" ++ nl ++ "y" ++ nl)] in
  Forall (fun e => is_data e = true) evs /\
  count_LF (output (run (getMacLogs None None 5 1) evs)) = 3%nat /\
  lineCount (run (getMacLogs None None 5 1) evs) = 1.
Proof.
  intros evs.
  assert (H : Forall (fun e => is_data e = true) evs) by (repeat constructor).
  split; [exact H|].
  destruct (getMacLogs_cap_spares_stderr None None 5 1 evs H) as (Hc & _).
  split; [rewrite Hc; reflexivity | reflexivity].
Defined.

(** ** The device fetch *)






Lemma getDeviceLogs_on_quiet udid maxLines e s :
  is_quiet e = true ->
  settled (getDeviceLogs_on udid maxLines e s) = settled s /\
  kills (getDeviceLogs_on udid maxLines e s) = kills s.
Proof.
  intros He. destruct e; try discriminate; cbn [getDeviceLogs_on].
  - rewrite device_lines, collect_lines. split; reflexivity.
  - destruct (negb (includes data "waiting")); split; reflexivity.
  - split; reflexivity.
Qed.

(** X9. [getDeviceLogs] does not listen to the close of the child: while
    only output and the close arrive the call stays pending and no signal
    is sent, so it always runs for its whole collection window; when the
    timer fires it sends SIGTERM and resolves with the text collected or,
    if there is none, with the notice that names the device. *)
Theorem device_fetch_waits_for_its_timer :
  forall (udid : string) (process : option string) (lastMinutes maxLines : Z)
         (pre post : list event),
    Forall (fun e => is_quiet e = true) pre ->
    let c := getDeviceLogs true udid process lastMinutes maxLines in
    settled (run c pre) = None /\
    kills (run c pre) = [] /\
    kills (run c (pre ++ [Timer])) = [SIGTERM] /\
    settled (run c (pre ++ Timer :: post)) =
      Some (or_else (output (run c pre)) ("No logs captured from device " ++ udid)).
Proof.
  intros udid process lastMinutes maxLines pre post Hpre c.
  assert (Hq : forall s, settled (fold_left (fun s e => listener c e s) pre s) = settled s /\
                         kills (fold_left (fun s e => listener c e s) pre s) = kills s).
  { subst c. cbn [getDeviceLogs listener].
    induction Hpre as [|e pre He _ IH]; intros s; [split; reflexivity|].
    cbn [fold_left]. destruct (IH (getDeviceLogs_on udid maxLines e s)) as (-> & ->).
    now apply getDeviceLogs_on_quiet. }
  destruct (Hq (init c)) as (Hs & Hk). fold (run c pre) in Hs, Hk.
  split; [exact Hs|]. split; [exact Hk|]. split.
  - rewrite run_app. cbn [fold_left].
    change (listener c Timer (run c pre))
      with (getDeviceLogs_on udid maxLines Timer (run c pre)).
    cbn [getDeviceLogs_on]. rewrite resolve_kills. unfold kill. cbn [kills].
    now rewrite Hk.
  - change (pre ++ Timer :: post)%list with (pre ++ [Timer] ++ post)%list.
    rewrite app_assoc, run_app. apply keeps_fold.
    + subst c. apply getDeviceLogs_on_keeps.
    + rewrite run_app. cbn [fold_left].
      change (listener c Timer (run c pre))
        with (getDeviceLogs_on udid maxLines Timer (run c pre)).
      cbn [getDeviceLogs_on]. apply resolve_pending.
      unfold kill. cbn [settled]. exact Hs.
Qed.

Lemma device_fetch_waits_for_its_timer_witness :
  let pre := [Stderr "waiting for device"; Close] in
  Forall (fun e => is_quiet e = true) pre /\
  settled (run (getDeviceLogs true "00008030" None 5 200) pre) = None /\
  settled (run (getDeviceLogs true "00008030" None 5 200) (pre ++ Timer :: [])) =
    Some "No logs captured from device 00008030".
Proof.
  intros pre.
  assert (H : Forall (fun e => is_quiet e = true) pre) by (repeat constructor).
  destruct (device_fetch_waits_for_its_timer "00008030" None 5 200 pre [] H)
    as (Hs & _ & _ & Ht).
  split; [exact H|]. split; [exact Hs|]. rewrite Ht. reflexivity.
Defined.

(** ** Matching and looking up *)

Lemma prefix_spec (a s : string) : prefix a s = true <-> exists b, s = a ++ b.
Proof.
  revert s. induction a as [|c a IH]; intros s.
  - split; [intros _; now exists s | intros _; now destruct s].
  - destruct s as [|d s]; simpl.
    + split; [discriminate | intros (b & H); discriminate].
    + destruct (ascii_dec c d) as [->|Hcd].
      * rewrite IH. split; intros (b & H); exists b; [now rewrite H | now injection H].
      * split; [discriminate | intros (b & H); injection H as H1 _; congruence].
Qed.

Lemma includes_spec (hay needle : string) :
  includes hay needle = true <-> exists a b, hay = a ++ needle ++ b.
Proof.
  induction hay as [|c hay IH]; cbn [includes].
  - rewrite orb_false_r, prefix_spec. split.
    + intros (b & H). exists EmptyString, b. exact H.
    + intros (a & b & H). destruct a; [now exists b | discriminate].
  - rewrite orb_true_iff, prefix_spec, IH. split.
    + intros [(b & H) | (a & b & H)].
      * exists EmptyString, b. exact H.
      * exists (String c a), b. simpl. now rewrite H.
    + intros (a & b & H). destruct a as [|d a].
      * left. now exists b.
      * right. injection H as _ H. now exists a, b.
Qed.

Lemma lower_upper_char (c : ascii) : lower_char (upper_char c) = lower_char c.
Proof. destruct c as [[] [] [] [] [] [] [] []]; reflexivity. Qed.

Lemma lower_lower_char (c : ascii) : lower_char (lower_char c) = lower_char c.
Proof. destruct c as [[] [] [] [] [] [] [] []]; reflexivity. Qed.

Lemma toLowerCase_toUpperCase (s : string) : toLowerCase (toUpperCase s) = toLowerCase s.
Proof.
  induction s as [|c s IH]; simpl; [reflexivity | now rewrite IH, lower_upper_char].
Qed.

Lemma toLowerCase_idem (s : string) : toLowerCase (toLowerCase s) = toLowerCase s.
Proof.
  induction s as [|c s IH]; simpl; [reflexivity | now rewrite IH, lower_lower_char].
Qed.

(** X10. The plain matcher of [searchLogs] and [watchForPattern] accepts a
    line exactly when the query, letters lowered, occurs somewhere in the
    line, letters lowered; so it gives the same verdict when query and line
    are put in upper or in lower case, and the empty query accepts every
    line. *)
Theorem plain_matcher_ignores_case :
  forall (query line : string),
    (plain_matcher query line = true <->
     exists a b, toLowerCase line = a ++ toLowerCase query ++ b) /\
    plain_matcher (toUpperCase query) (toUpperCase line) = plain_matcher query line /\
    plain_matcher (toLowerCase query) (toLowerCase line) = plain_matcher query line /\
    plain_matcher EmptyString line = true.
Proof.
  intros query line. unfold plain_matcher. split; [apply includes_spec|].
  rewrite !toLowerCase_toUpperCase, !toLowerCase_idem.
  split; [reflexivity|]. split; [reflexivity|].
  apply includes_spec. exists EmptyString, (toLowerCase line). reflexivity.
Qed.

Lemma plain_matcher_ignores_case_witness :
  (exists a b, toLowerCase "kernel: Connection Established" =
               a ++ toLowerCase "connection ESTABLISHED" ++ b) /\
  plain_matcher "connection ESTABLISHED" "kernel: Connection Established" = true.
Proof.
  assert (H : exists a b, toLowerCase "kernel: Connection Established" =
                          a ++ toLowerCase "connection ESTABLISHED" ++ b).
  { exists "kernel: ", EmptyString. reflexivity. }
  split; [exact H|].
  exact (proj2 (proj1 (plain_matcher_ignores_case "connection ESTABLISHED"
                         "kernel: Connection Established")) H).
Defined.




(** ** Simulators *)




(** ** What a search returns *)

(** X13. [searchLogs] resolves at the close of the child with the first
    [maxLines] matching lines; the notice that nothing matched is returned
    when no stdout line matches, and also, whatever matched, when the cap is
    not positive; with a cap of at least one line and a matching line the
    text returned is the kept lines. *)
Theorem search_returns_matches_or_notice :
  forall (RegExp_i : string -> regexp) (query : string) (lastMinutes maxLines : Z)
         (useRegex : bool) (matcher : string -> bool) (chunks : list string)
         (post : list event),
    matcher_of RegExp_i query useRegex = Some matcher ->
    let c := searchLogs RegExp_i query lastMinutes maxLines useRegex in
    let kept := with_LF (firstn (Z.to_nat maxLines) (filter matcher (lines_of chunks))) in
    let notice := "No logs matching " ++ dq ++ query ++ dq ++ " found" in
    settled (run c (map Stdout chunks ++ Close :: post)) = Some (or_else kept notice) /\
    (filter matcher (lines_of chunks) = [] -> or_else kept notice = notice) /\
    (maxLines <= 0 -> or_else kept notice = notice) /\
    (filter matcher (lines_of chunks) <> [] -> 1 <= maxLines -> or_else kept notice = kept).
Proof.
  intros RegExp_i query lastMinutes maxLines useRegex matcher chunks post Hm c kept notice.
  subst c. rewrite (searchLogs_matcher _ _ _ _ _ _ Hm).
  set (c := Call _ _ _ _).
  assert (Hrun : run c (map Stdout chunks) =
                 Collector kept (Z.of_nat (List.length
                   (firstn (Z.to_nat maxLines) (filter matcher (lines_of chunks)))))
                   None []).
  { unfold run. subst c. cbn [listener init]. now rewrite searchLogs_on_stdout_run. }
  split; [|split; [|split]].
  - change (map Stdout chunks ++ Close :: post)%list
      with (map Stdout chunks ++ [Close] ++ post)%list.
    rewrite app_assoc, run_app. apply keeps_fold.
    + subst c. apply searchLogs_on_keeps.
    + rewrite run_app, Hrun. reflexivity.
  - intros H. subst kept. rewrite H, firstn_nil. reflexivity.
  - intros H. subst kept. replace (Z.to_nat maxLines) with O by lia. reflexivity.
  - intros Hne Hcap. subst kept.
    destruct (filter matcher (lines_of chunks)) as [|l ls]; [contradiction|].
    replace (Z.to_nat maxLines) with (Datatypes.S (Z.to_nat (maxLines - 1))) by lia.
    cbn [firstn]. apply or_else_kept, with_LF_not_empty.
Qed.

Lemma search_returns_matches_or_notice_witness :
  matcher_of sample_RegExp "err" true = Some (plain_matcher "err") /\
  filter (plain_matcher "err") (lines_of ["ok" ++ nl ++ "fine"]) = [] /\
  settled (run (searchLogs sample_RegExp "err" 30 100 true)
               (map Stdout ["ok" ++ nl ++ "fine"] ++ Close :: [])) =
    Some ("No logs matching " ++ dq ++ "err" ++ dq ++ " found").
Proof.
  assert (Hm : matcher_of sample_RegExp "err" true = Some (plain_matcher "err"))
    by reflexivity.
  assert (Hf : filter (plain_matcher "err") (lines_of ["ok" ++ nl ++ "fine"]) = [])
    by reflexivity.
  destruct (search_returns_matches_or_notice sample_RegExp "err" 30 100 true _
              ["ok" ++ nl ++ "fine"] [] Hm) as (Hc & Hn & _).
  split; [exact Hm|]. split; [exact Hf|]. rewrite Hc. now rewrite (Hn Hf).
Defined.

(** ** The device table *)

Lemma trim_start_starts (s : string) : starts_with_space (trim_start s) = false.
Proof.
  induction s as [|c s IH]; [reflexivity|]. simpl.
  destruct (is_space c) eqn:E; [exact IH | simpl; exact E].
Qed.

Lemma trim_end_starts (s : string) :
  starts_with_space s = false -> starts_with_space (trim_end s) = false.
Proof.
  destruct s as [|c s]; [reflexivity|]. simpl. intros E.
  destruct (trim_end s); [rewrite E|]; simpl; exact E.
Qed.

Lemma trim_end_ends (s : string) : ends_in_space (trim_end s) = false.
Proof.
  induction s as [|c s IH]; [reflexivity|]. simpl.
  destruct (trim_end s) as [|d kept] eqn:Hk.
  - destruct (is_space c) eqn:E; [reflexivity | simpl; exact E].
  - exact IH.
Qed.

Lemma trim_edges (s : string) :
  starts_with_space (trim s) = false /\ ends_in_space (trim s) = false.
Proof.
  unfold trim. split; [apply trim_end_starts, trim_start_starts | apply trim_end_ends].
Qed.

Lemma append_not_empty_r (a : string) (c : ascii) : a ++ String c EmptyString <> EmptyString.
Proof. destruct a; discriminate. Qed.

Lemma ends_in_space_tail (c : ascii) (rest : string) :
  ends_in_space (String c rest) = false ->
  ends_in_space rest = false /\ (rest = EmptyString -> is_space c = false).
Proof.
  destruct rest as [|d rest]; simpl; intros H; [split; [reflexivity | intros _; exact H]|].
  split; [exact H | discriminate].
Qed.

(** The columns of a text with no white space at its ends are not empty. *)
Lemma split_gaps_from_columns (s field gap : string) :
  field <> EmptyString \/ (gap = EmptyString /\ starts_with_space s = false /\
                           s <> EmptyString) ->
  (s = EmptyString -> gap = EmptyString) ->
  ends_in_space s = false ->
  Forall (fun part => part <> EmptyString) (split_gaps_from field gap s).
Proof.
  revert field gap. induction s as [|c rest IH]; intros field gap Hf Hg He.
  - rewrite (Hg eq_refl). simpl. constructor; [|constructor].
    destruct Hf as [Hf | (_ & _ & Hf)]; [exact Hf | contradiction].
  - destruct (ends_in_space_tail c rest He) as (Hrest & Hlast).
    cbn [split_gaps_from]. destruct (is_space c) eqn:Ec.
    + assert (Hfield : field <> EmptyString).
      { destruct Hf as [Hf | (_ & Hs & _)]; [exact Hf|]. simpl in Hs. congruence. }
      apply IH; [now left | | exact Hrest].
      intros ->. specialize (Hlast eq_refl). congruence.
    + destruct gap as [|w [|w' gap]].
      * apply IH; [left; apply append_not_empty_r | reflexivity | exact Hrest].
      * apply IH; [left | reflexivity | exact Hrest].
        destruct field; discriminate.
      * constructor.
        -- destruct Hf as [Hf | (Hgap & _)]; [exact Hf | discriminate].
        -- apply IH; [left; discriminate | reflexivity | exact Hrest].
Qed.

Lemma split_gaps_trimmed (line : string) :
  trim line <> EmptyString ->
  Forall (fun part => part <> EmptyString) (split_gaps (trim line)).
Proof.
  intros H. destruct (trim_edges line) as (Hs & He).
  apply split_gaps_from_columns; [right; auto | reflexivity | exact He].
Qed.

Lemma or_else_not_empty (s d : string) : d <> EmptyString -> or_else s d <> EmptyString.
Proof.
  intros H. unfold or_else. destruct (String.eqb_spec s EmptyString); [exact H | assumption].
Qed.

Lemma device_of_line_spec (line : string) (d : Device.t) :
  In d (device_of_line line) ->
  let parts := split_gaps (trim line) in
  (4 <= List.length parts)%nat /\
  Device.name d = nth 0 parts EmptyString /\
  Device.udid d = nth 2 parts EmptyString /\
  Device.model d = or_else (nth 4 parts EmptyString) "Unknown" /\
  Device.connectionType d = or_else (nth 1 parts EmptyString) "Unknown" /\
  Device.name d <> EmptyString /\ Device.udid d <> EmptyString.
Proof.
  unfold device_of_line. cbv zeta. intros H.
  set (parts := split_gaps (trim line)) in *.
  destruct (Nat.leb_spec 4 (List.length parts)) as [Hl|Hl]; [|contradiction].
  destruct H as [<-|[]]. cbn [Device.name Device.udid Device.model Device.connectionType].
  assert (Hne : trim line <> EmptyString).
  { intros E. subst parts. rewrite E in Hl. simpl in Hl. lia. }
  pose proof (split_gaps_trimmed line Hne) as Hall. fold parts in Hall.
  rewrite Forall_forall in Hall.
  repeat split; try exact Hl; apply Hall, nth_In; lia.
Qed.

(** X14. [getConnectedDevices] reads the table [devicectl] prints: nothing
    when the command failed, otherwise at most one device per line after
    the two header lines. A line gives a device when, trimmed and cut at
    every run of two or more blanks, it has at least four columns; the
    device takes the first column as name and the third as udid, neither of
    them empty; model and connection type are never empty, and a line of
    exactly four columns has the model [Unknown], the model being read from
    a fifth column. *)
Theorem device_table_rows :
  forall (text : string),
    getConnectedDevices None = [] /\
    (List.length (getConnectedDevices (Some text)) <= List.length (split LF text) - 2)%nat /\
    (forall d, In d (getConnectedDevices (Some text)) ->
               exists line,
                 In line (skipn 2 (split LF text)) /\
                 (4 <= List.length (split_gaps (trim line)))%nat /\
                 Device.name d = nth 0 (split_gaps (trim line)) EmptyString /\
                 Device.udid d = nth 2 (split_gaps (trim line)) EmptyString /\
                 Device.name d <> EmptyString /\ Device.udid d <> EmptyString /\
                 Device.model d <> EmptyString /\ Device.connectionType d <> EmptyString) /\
    (forall line, List.length (split_gaps (trim line)) = 4%nat ->
                  exists d, device_of_line line = [d] /\ Device.model d = "Unknown").
Proof.
  intros text. split; [reflexivity|]. split; [|split].
  - unfold getConnectedDevices. rewrite <- length_skipn.
    induction (skipn 2 (split LF text)) as [|l ls IH]; [simpl; lia|].
    cbn [flat_map]. rewrite length_app. cbn [List.length].
    assert (List.length (device_of_line l) <= 1)%nat.
    { unfold device_of_line. destruct (Nat.leb 4 _); simpl; lia. }
    lia.
  - intros d Hd. unfold getConnectedDevices in Hd. apply in_flat_map in Hd.
    destruct Hd as (line & Hin & Hd). exists line.
    destruct (device_of_line_spec line d Hd) as (H4 & Hn & Hu & Hm & Hc & Hn' & Hu').
    repeat split; try assumption.
    + rewrite Hm. apply or_else_not_empty. discriminate.
    + rewrite Hc. apply or_else_not_empty. discriminate.
  - intros line H4. unfold device_of_line. rewrite H4. cbn [Nat.leb].
    eexists. split; [reflexivity|]. cbn [Device.model].
    rewrite nth_overflow by lia. reflexivity.
Qed.

Lemma device_table_rows_witness :
  let text := "Name   Host   Id   State   Model" ++ nl ++ "----" ++ nl ++
              "  Pad   pad.local   0000-2   connected" ++ nl in
  List.length (split_gaps (trim "  Pad   pad.local   0000-2   connected")) = 4%nat /\
  (exists d, device_of_line "  Pad   pad.local   0000-2   connected" = [d] /\
             Device.model d = "Unknown") /\
  List.length (getConnectedDevices (Some text)) = 1%nat.
Proof.
  intros text.
  assert (H : List.length (split_gaps (trim "  Pad   pad.local   0000-2   connected")) = 4%nat)
    by reflexivity.
  destruct (device_table_rows text) as (_ & _ & _ & H4).
  split; [exact H|]. split; [exact (H4 _ H) | reflexivity].
Defined.

(** ** Crash reports *)

Lemma insert_report_In (x r : CrashReport.t) (l : list CrashReport.t) :
  In x (insert_report r l) <-> x = r \/ In x l.
Proof.
  induction l as [|y l IH]; simpl; [intuition congruence|].
  destruct (CrashReport.date y <=? CrashReport.date r); simpl; [intuition congruence|].
  rewrite IH. intuition congruence.
Qed.

Lemma sort_reports_In (x : CrashReport.t) (l : list CrashReport.t) :
  In x (sort_reports l) <-> In x l.
Proof.
  induction l as [|y l IH]; simpl; [reflexivity|].
  rewrite insert_report_In, IH. intuition congruence.
Qed.

Lemma insert_report_length (r : CrashReport.t) (l : list CrashReport.t) :
  List.length (insert_report r l) = Datatypes.S (List.length l).
Proof.
  induction l as [|y l IH]; simpl; [reflexivity|].
  destruct (CrashReport.date y <=? CrashReport.date r); simpl; [reflexivity | now rewrite IH].
Qed.

Lemma sort_reports_length (l : list CrashReport.t) :
  List.length (sort_reports l) = List.length l.
Proof.
  induction l as [|y l IH]; simpl; [reflexivity | now rewrite insert_report_length, IH].
Qed.

Lemma insert_report_sorted (r : CrashReport.t) (l : list CrashReport.t) :
  newest_first l -> newest_first (insert_report r l).
Proof.
  unfold newest_first. induction 1 as [|y l Hl IH Hy]; simpl.
  - constructor; constructor.
  - destruct (Z.leb_spec (CrashReport.date y) (CrashReport.date r)) as [Hle|Hlt].
    + constructor; [constructor; assumption|].
      constructor; [exact Hle|].
      rewrite Forall_forall in *. intros b Hb. specialize (Hy b Hb). lia.
    + constructor; [exact IH|].
      rewrite Forall_forall in *. intros b Hb. apply insert_report_In in Hb.
      destruct Hb as [->|Hb]; [lia | now apply Hy].
Qed.

Lemma sort_reports_sorted (l : list CrashReport.t) : newest_first (sort_reports l).
Proof.
  induction l as [|y l IH]; simpl; [constructor | now apply insert_report_sorted].
Qed.

Lemma sorted_app {A} (R : A -> A -> Prop) (a b : list A) :
  StronglySorted R (a ++ b) ->
  StronglySorted R a /\ forall x y, In x a -> In y b -> R x y.
Proof.
  induction a as [|x a IH]; simpl; intros H.
  - split; [constructor | intros x y []].
  - inversion H as [|? ? Hs Hf]; subst. destruct (IH Hs) as (Ha & Hab).
    rewrite Forall_forall in Hf. split.
    + constructor; [exact Ha|]. rewrite Forall_forall. intros y Hy.
      apply Hf, in_or_app. now left.
    + intros x' y [<-|Hx] Hy; [apply Hf, in_or_app; now right | now apply Hab].
Qed.

Lemma slice0_prefix {A} (n : Z) (l : list A) : exists rest, l = (slice0 n l ++ rest)%list.
Proof.
  unfold slice0. destruct (n <? 0);
    [exists (skipn (List.length l - Z.to_nat (- n)) l)
    | exists (skipn (Z.to_nat n) l)]; now rewrite firstn_skipn.
Qed.

Lemma slice0_length {A} (n : Z) (l : list A) :
  0 <= n -> Z.of_nat (List.length (slice0 n l)) <= n.
Proof.
  intros H. unfold slice0. destruct (Z.ltb_spec n 0); [lia|].
  rewrite length_firstn. lia.
Qed.

Lemma slice0_all {A} (n : Z) (l : list A) :
  Z.of_nat (List.length l) <= n -> slice0 n l = l.
Proof.
  intros H. unfold slice0. destruct (Z.ltb_spec n 0); [lia|].
  apply firstn_all2. lia.
Qed.

Lemma count_LF_join (parts : list string) :
  Forall (fun l => count_LF l = O) parts ->
  count_LF (join nl parts) = Nat.pred (List.length parts).
Proof.
  induction 1 as [|p ps Hp Hps IH]; [reflexivity|].
  destruct ps as [|q qs]; [simpl; exact Hp|].
  change (join nl (p :: q :: qs)) with (p ++ nl ++ join nl (q :: qs)).
  rewrite !count_LF_append, Hp, IH. reflexivity.
Qed.

Section CrashFacts.

Variable path_join : string -> string -> string.
Variable toLocaleString : Z -> string.
Variable readdir : string -> option (list entry).
Variable days_ago : Z -> Z.

Lemma scan_In process cutoffDate dir files reports r :
  In r (scan path_join process cutoffDate dir files reports) ->
  In r reports \/ accounted path_join process cutoffDate dir files r.
Proof.
  revert reports. induction files as [|f files IH]; intros reports H; [now left|].
  assert (Hmono : accounted path_join process cutoffDate dir files r ->
                  accounted path_join process cutoffDate dir (f :: files) r).
  { intros (f' & content & Hin & Hrest). exists f', content. split; [now right | exact Hrest]. }
  cbn [scan] in H.
  destruct (is_report (entry_name f)) eqn:Er; cbn [negb] in H;
    [|destruct (IH _ H); auto].
  destruct (other_process process (entry_name f)) eqn:Eo; [destruct (IH _ H); auto|].
  destruct (entry_mtime f) as [mtime|] eqn:Em; [|now left].
  destruct (Z.ltb_spec mtime cutoffDate) as [Hlt|Hge]; [destruct (IH _ H); auto|].
  destruct (entry_text f) as [content|] eqn:Et; [|now left].
  destruct (IH _ H) as [Hin|Hacc]; [|auto].
  apply in_app_or in Hin. destruct Hin as [Hin|[<-|[]]]; [now left|].
  right. exists f, content. cbn [report_of CrashReport.date].
  repeat split; auto. now left.
Qed.

Lemma scan_dirs_In process cutoffDate crashDirs r :
  In r (scan_dirs path_join readdir process cutoffDate crashDirs) ->
  exists dir files,
    In dir crashDirs /\ readdir dir = Some files /\
    accounted path_join process cutoffDate dir files r.
Proof.
  unfold scan_dirs.
  assert (G : forall acc,
             In r (fold_left
                     (fun reports dir =>
                        match readdir dir with
                        | None => reports
                        | Some files => scan path_join process cutoffDate dir files reports
                        end) crashDirs acc) ->
             In r acc \/
             exists dir files, In dir crashDirs /\ readdir dir = Some files /\
                               accounted path_join process cutoffDate dir files r).
  { induction crashDirs as [|dir dirs IH]; intros acc H; [now left|].
    cbn [fold_left] in H. apply IH in H.
    destruct H as [H | (d & fs & Hd & Hr & Ha)].
    - destruct (readdir dir) as [files|] eqn:E; [|now left].
      apply scan_In in H. destruct H as [H|H]; [now left|].
      right. exists dir, files. split; [now left | auto].
    - right. exists d, fs. split; [now right | auto]. }
  intros H. destruct (G [] H) as [[]|H']. exact H'.
Qed.

Lemma slice0_In {A} (n : Z) (l : list A) (x : A) : In x (slice0 n l) -> In x l.
Proof.
  destruct (slice0_prefix n l) as (rest & E). intros H. rewrite E.
  apply in_or_app. now left.
Qed.

(** X15. The reports [getCrashLogs] returns are the first of the reports
    found, ordered from the newest to the oldest: they are in that order,
    no report left out is newer than a report returned, there are at most
    [maxReports] of them when [maxReports] is not negative, and none is
    left out when no more than [maxReports] were found. *)
Theorem crash_reports_newest_first :
  forall (homedir : string) (process : option string) (lastDays maxReports : Z),
    let crashDirs :=
      [path_join homedir "Library/Logs/DiagnosticReports";
       "/Library/Logs/DiagnosticReports"] in
    let found := scan_dirs path_join readdir process (days_ago lastDays) crashDirs in
    let reports :=
      fst (getCrashLogs path_join toLocaleString readdir days_ago
             homedir process lastDays maxReports) in
    newest_first reports /\
    (exists older,
        sort_reports found = (reports ++ older)%list /\
        forall a b, In a reports -> In b older ->
                    CrashReport.date b <= CrashReport.date a) /\
    (forall r, In r reports -> In r found) /\
    (0 <= maxReports -> Z.of_nat (List.length reports) <= maxReports) /\
    (Z.of_nat (List.length found) <= maxReports -> reports = sort_reports found).
Proof.
  intros homedir process lastDays maxReports crashDirs found reports.
  assert (Hr : reports = slice0 maxReports (sort_reports found)) by reflexivity.
  destruct (slice0_prefix maxReports (sort_reports found)) as (older & Hold).
  rewrite <- Hr in Hold.
  pose proof (sort_reports_sorted found) as Hs. unfold newest_first in Hs.
  rewrite Hold in Hs. destruct (sorted_app _ _ _ Hs) as (Hfirst & Hcross).
  split; [exact Hfirst|]. split; [exists older; split; [exact Hold | exact Hcross]|].
  split; [|split].
  - intros r H. rewrite Hr in H. apply slice0_In in H. now apply (proj1 (sort_reports_In _ _)) in H.
  - intros H. rewrite Hr. now apply slice0_length.
  - intros H. rewrite Hr. apply slice0_all. now rewrite sort_reports_length.
Qed.

(** X16. Every report [getCrashLogs] returns stands for a file of one of
    the two report directories: a file whose name ends in .crash, .ips or
    .diag and contains the process asked for (letters lowered) when one is
    asked for, modified no earlier than the cut-off date, which is the date
    of the report; its path is the directory joined with the name, and its
    preview is the first ten lines of the file at most. *)
Theorem crash_reports_pass_filters :
  forall (homedir : string) (process : option string) (lastDays maxReports : Z)
         (r : CrashReport.t),
    In r (fst (getCrashLogs path_join toLocaleString readdir days_ago
                 homedir process lastDays maxReports)) ->
    is_report (CrashReport.filename r) = true /\
    other_process process (CrashReport.filename r) = false /\
    days_ago lastDays <= CrashReport.date r /\
    (count_LF (CrashReport.preview r) <= 9)%nat /\
    exists dir files f,
      (dir = path_join homedir "Library/Logs/DiagnosticReports" \/
       dir = "/Library/Logs/DiagnosticReports") /\
      readdir dir = Some files /\ In f files /\
      entry_name f = CrashReport.filename r /\
      entry_mtime f = Some (CrashReport.date r) /\
      CrashReport.path r = path_join dir (CrashReport.filename r).
Proof.
  intros homedir process lastDays maxReports r H.
  cbn [getCrashLogs fst] in H. apply slice0_In in H. apply (proj1 (sort_reports_In _ _)) in H.
  apply scan_dirs_In in H.
  destruct H as (dir & files & Hdir & Hread & f & content & Hin & Hrep & Hproc & Hm & Hcut
                 & Ht & Hr).
  assert (Hname : CrashReport.filename r = entry_name f) by (rewrite Hr; reflexivity).
  assert (Hpath : CrashReport.path r = path_join dir (entry_name f))
    by (rewrite Hr; reflexivity).
  assert (Hprev : CrashReport.preview r = join nl (firstn 10 (split LF content)))
    by (rewrite Hr; reflexivity).
  rewrite Hname. split; [exact Hrep|]. split; [exact Hproc|]. split; [exact Hcut|]. split.
  - rewrite Hprev, count_LF_join by apply Forall_firstn, split_lines_clean.
    pose proof (firstn_le_length 10 (split LF content)) as L.
    rewrite length_firstn. lia.
  - exists dir, files, f. repeat split; auto.
    destruct Hdir as [<-|[<-|[]]]; auto.
Qed.

(** X17. A report file whose [stat] or [readFile] fails ends the reading of
    its directory: the files listed after it are not looked at, whatever
    they are, while the reports pushed before it stay. *)
Theorem unreadable_report_ends_the_directory :
  forall (process : option string) (cutoffDate : Z) (dir : string)
         (before after : list entry) (f : entry) (reports : list CrashReport.t),
    is_report (entry_name f) = true ->
    other_process process (entry_name f) = false ->
    (entry_mtime f = None \/
     exists mtime, entry_mtime f = Some mtime /\ cutoffDate <= mtime /\
                   entry_text f = None) ->
    scan path_join process cutoffDate dir (before ++ f :: after) reports =
    scan path_join process cutoffDate dir before reports.
Proof.
  intros process cutoffDate dir before after f reports Hr Ho Hbad. revert reports.
  induction before as [|b before IH]; intros reports.
  - cbn [app scan]. rewrite Hr, Ho. cbn [negb].
    destruct Hbad as [->|(mtime & -> & Hge & ->)]; [reflexivity|].
    destruct (Z.ltb_spec mtime cutoffDate); [lia | reflexivity].
  - cbn [app scan].
    destruct (negb (is_report (entry_name b))); [apply IH|].
    destruct (other_process process (entry_name b)); [apply IH|].
    destruct (entry_mtime b) as [mtime|]; [|reflexivity].
    destruct (mtime <? cutoffDate); [apply IH|].
    destruct (entry_text b); [apply IH | reflexivity].
Qed.

End CrashFacts.

(** X18. A negative [maxReports] does not empty the answer of
    [getCrashLogs]: [slice(0, maxReports)] then drops that many of the
    oldest reports and returns the others. *)
Theorem negative_limit_drops_the_oldest :
  forall (path_join : string -> string -> string) (toLocaleString : Z -> string)
         (readdir : string -> option (list entry)) (days_ago : Z -> Z)
         (homedir : string) (process : option string) (lastDays maxReports : Z),
    maxReports < 0 ->
    let found :=
      scan_dirs path_join readdir process (days_ago lastDays)
        [path_join homedir "Library/Logs/DiagnosticReports";
         "/Library/Logs/DiagnosticReports"] in
    let reports :=
      fst (getCrashLogs path_join toLocaleString readdir days_ago
             homedir process lastDays maxReports) in
    Z.of_nat (List.length reports) = Z.max 0 (Z.of_nat (List.length found) + maxReports).
Proof.
  intros path_join toLocaleString readdir days_ago homedir process lastDays maxReports
         Hneg found reports.
  subst reports. cbn [getCrashLogs fst]. fold found. unfold slice0.
  destruct (Z.ltb_spec maxReports 0); [|lia].
  rewrite length_firstn, sort_reports_length. lia.
Qed.

Lemma negative_limit_drops_the_oldest_witness :
  -1 < 0 /\
  map CrashReport.filename
      (fst (getCrashLogs sample_join show sample_readdir sample_days_ago
              "/Users/ada" None 60 (-1))) = ["Mail-2024-02.ips"] /\
  Z.of_nat (List.length
              (fst (getCrashLogs sample_join show sample_readdir sample_days_ago
                      "/Users/ada" None 60 (-1)))) = 1.
Proof.
  assert (H : -1 < 0) by lia.
  split; [exact H|]. split; [reflexivity|].
  rewrite (negative_limit_drops_the_oldest sample_join show sample_readdir sample_days_ago
             "/Users/ada" None 60 (-1) H).
  reflexivity.
Defined.

Lemma crash_reports_newest_first_witness :
  0 <= 1 /\
  Z.of_nat (List.length
              (fst (getCrashLogs sample_join show sample_readdir sample_days_ago
                      "/Users/ada" None 60 1))) <= 1 /\
  map CrashReport.date
      (fst (getCrashLogs sample_join show sample_readdir sample_days_ago
              "/Users/ada" None 60 10)) = [70; 50].
Proof.
  assert (H : 0 <= 1) by lia.
  destruct (crash_reports_newest_first sample_join show sample_readdir sample_days_ago
              "/Users/ada" None 60 1) as (_ & _ & _ & Hlen & _).
  split; [exact H|]. split; [exact (Hlen H) | reflexivity].
Defined.

Lemma crash_reports_pass_filters_witness :
  let r := {| CrashReport.filename := "Safari-2024-01.crash";
              CrashReport.path :=
                "/Users/ada/Library/Logs/DiagnosticReports/Safari-2024-01.crash";
              CrashReport.process := "Safari";
              CrashReport.date := 50;
              CrashReport.preview := "Process: Safari" ++ nl ++ "Path: /Applications" |} in
  In r (fst (getCrashLogs sample_join show sample_readdir sample_days_ago
               "/Users/ada" (Some "SAFARI") 60 10)) /\
  is_report (CrashReport.filename r) = true /\
  sample_days_ago 60 <= CrashReport.date r.
Proof.
  intros r.
  assert (H : In r (fst (getCrashLogs sample_join show sample_readdir sample_days_ago
                           "/Users/ada" (Some "SAFARI") 60 10))) by (left; reflexivity).
  destruct (crash_reports_pass_filters sample_join show sample_readdir sample_days_ago
              "/Users/ada" (Some "SAFARI") 60 10 r H) as (H1 & _ & H3 & _).
  split; [exact H|]. split; [exact H1 | exact H3].
Defined.

Lemma unreadable_report_ends_the_directory_witness :
  let locked := Entry "Locked-2024-03.crash" None None in
  is_report (entry_name locked) = true /\
  other_process None (entry_name locked) = false /\
  entry_mtime locked = None /\
  scan sample_join None 40 "/reports" sample_files [] =
  scan sample_join None 40 "/reports" (firstn 3 sample_files) [].
Proof.
  intros locked.
  assert (H1 : is_report (entry_name locked) = true) by reflexivity.
  assert (H2 : other_process None (entry_name locked) = false) by reflexivity.
  assert (H3 : entry_mtime locked = None) by reflexivity.
  split; [exact H1|]. split; [exact H2|]. split; [exact H3|].
  exact (unreadable_report_ends_the_directory sample_join None 40 "/reports"
           (firstn 3 sample_files) (skipn 4 sample_files) locked [] H1 H2 (or_introl H3)).
Defined.

(** ** The simulator list *)

Lemma hyphens_to_spaces_clean (s : string) : has_hyphen (hyphens_to_spaces s) = false.
Proof.
  induction s as [|c s IH]; [reflexivity|]. simpl.
  destruct (Ascii.eqb c "-") eqn:E; simpl; [exact IH | now rewrite E].
Qed.

Lemma drop_append (a b : string) : drop (String.length a) (a ++ b) = b.
Proof. induction a as [|c a IH]; simpl; [now destruct b | exact IH]. Qed.

Lemma replace_first_prefix (pattern replacement s : string) :
  prefix pattern s = true ->
  replace_first pattern replacement s = replacement ++ drop (String.length pattern) s.
Proof.
  intros H. destruct s; unfold replace_first; fold replace_first; now rewrite H.
Qed.

(** X19. [getSimulators] lists the devices of every runtime of the JSON in
    the order they come, none lost and none added, each with its udid, name
    and state as printed; the runtime has its CoreSimulator prefix removed
    and every hyphen turned into a space, so it holds no hyphen; a failed
    command or parse gives the empty list. *)
Theorem simulators_keep_order :
  forall (entries : list (string * list simctl_device)) (rest : string),
    getSimulators None = [] /\
    map udid (getSimulators (Some entries)) = map listed_udid (flat_map snd entries) /\
    map name (getSimulators (Some entries)) = map listed_name (flat_map snd entries) /\
    map state (getSimulators (Some entries)) = map listed_state (flat_map snd entries) /\
    Forall (fun sim => has_hyphen (runtime sim) = false) (getSimulators (Some entries)) /\
    runtimeName ("com.apple.CoreSimulator.SimRuntime." ++ rest) = hyphens_to_spaces rest.
Proof.
  intros entries rest. split; [reflexivity|].
  assert (Hmap : forall {B} (f : Simulator -> B) (g : simctl_device -> B),
             (forall rt d, f {| udid := listed_udid d; name := listed_name d;
                                state := listed_state d; runtime := runtimeName rt;
                                isAvailable := listed_isAvailable d |} = g d) ->
             map f (getSimulators (Some entries)) = map g (flat_map snd entries)).
  { intros B f g Hfg. unfold getSimulators.
    induction entries as [|[rt ds] es IH]; [reflexivity|].
    cbn [flat_map snd]. rewrite !map_app, IH. f_equal.
    rewrite map_map. apply map_ext. intros d. apply Hfg. }
  split; [apply Hmap; reflexivity|]. split; [apply Hmap; reflexivity|].
  split; [apply Hmap; reflexivity|]. split.
  - unfold getSimulators. apply Forall_forall. intros sim Hin.
    apply in_flat_map in Hin. destruct Hin as ([rt ds] & _ & Hin).
    apply in_map_iff in Hin. destruct Hin as (d & <- & _). cbn [runtime].
    apply hyphens_to_spaces_clean.
  - unfold runtimeName. f_equal.
    rewrite replace_first_prefix by apply prefix_append.
    now rewrite drop_append.
Qed.

(** ** Logs by level *)

Lemma getLogsByLevel_data (level : string) (maxLines : Z) (evs : list event)
  (s : collector) :
  Forall (fun e => is_data e = true) evs ->
  fold_left (fun s e => getLogsByLevel_on level maxLines e s) evs s =
  fold_left (collect_line maxLines) (stdout_lines evs) s.
Proof.
  intros H. revert s. induction H as [|e evs He _ IH]; intros s; [reflexivity|].
  destruct e; try discriminate; cbn [fold_left getLogsByLevel_on stdout_lines flat_map].
  - rewrite IH. unfold getMacLogs_stdout. now rewrite fold_left_app.
  - rewrite IH. reflexivity.
Qed.

(** X20. [getLogsByLevel] collects stdout only: after any output on the two
    streams, the text is the first [maxLines] stdout lines and nothing of
    stderr; at the close of the child it is returned, or, when it is empty,
    the notice that names the level as it was given. *)
Theorem level_fetch_drops_stderr :
  forall (level : string) (process : option string) (lastMinutes maxLines : Z)
         (evs post : list event),
    Forall (fun e => is_data e = true) evs ->
    let c := getLogsByLevel level process lastMinutes maxLines in
    let kept := with_LF (firstn (Z.to_nat maxLines) (stdout_lines evs)) in
    output (run c evs) = kept /\
    settled (run c (evs ++ Close :: post)) =
      Some (or_else kept ("No " ++ level ++ " logs found")) /\
    (stdout_lines evs = [] ->
     settled (run c (evs ++ Close :: post)) = Some ("No " ++ level ++ " logs found")).
Proof.
  intros level process lastMinutes maxLines evs post Hevs c kept.
  assert (Hrun : run c evs =
                 Collector kept (Z.of_nat (List.length
                   (firstn (Z.to_nat maxLines) (stdout_lines evs)))) None []).
  { unfold run. subst c. cbn [getLogsByLevel listener init].
    rewrite (getLogsByLevel_data _ _ _ _ Hevs). apply collect_from_fresh. }
  assert (Hclose : settled (run c (evs ++ Close :: post)) =
                   Some (or_else kept ("No " ++ level ++ " logs found"))).
  { change (evs ++ Close :: post)%list with (evs ++ [Close] ++ post)%list.
    rewrite app_assoc, run_app. apply keeps_fold.
    - subst c. apply getLogsByLevel_on_keeps.
    - rewrite run_app, Hrun. reflexivity. }
  split; [now rewrite Hrun|]. split; [exact Hclose|].
  intros Hnone. rewrite Hclose. subst kept. rewrite Hnone, firstn_nil. reflexivity.
Qed.

Lemma level_fetch_drops_stderr_witness :
  let evs := [Stderr ("log: warning" ++ nl); Stderr "more"] in
  Forall (fun e => is_data e = true) evs /\
  stdout_lines evs = [] /\
  settled (run (getLogsByLevel "fault" None 5 200) (evs ++ Close :: [Timer])) =
    Some "No fault logs found".
Proof.
  intros evs.
  assert (H : Forall (fun e => is_data e = true) evs) by (repeat constructor).
  assert (Hn : stdout_lines evs = []) by reflexivity.
  destruct (level_fetch_drops_stderr "fault" None 5 200 evs [Timer] H) as (_ & _ & Hc).
  split; [exact H|]. split; [exact Hn | exact (Hc Hn)].
Defined.
